(** * sparkanywhere: the Kubernetes API shim and its task providers

    A shallow embedding of [sparkanywhere/k8s.go] (the shim that turns pod
    submissions into provider tasks and fans ADDED events out to watchers),
    of [sparkanywhere/provider_ecs.go] and of
    [sparkanywhere/provider_docker.go].

    Conventions.
    - A Go [uint64] is a [Z] with its wrap-around written out.
    - A Go [error] is the text of its message; [nil] is [None].
    - A Go [map[string]string] is a [gmap string string].
    - Methods on [*K8S] run in a small monad over the receiver and the trace
      of calls that leave the process (provider calls, log records, the
      server goroutine).  A computation returns, panics, or parks its
      goroutine (a send on a full channel, a contended lock, a provider call
      that does not come back).
    - The [provider] interface is a type class; the two implementations are
      reached through a sum, which is how [New] picks one of them. *)

From stdpp Require Import base tactics option list strings gmap pretty.
From Stdlib Require Import ZArith Lia.

Local Open Scope string_scope.
Local Open Scope nat_scope.
Local Open Scope list_scope.

(* ================================================================== *)
(** ** Data model *)
(* ================================================================== *)

Definition error := string.

(** [type taskHandle struct { Name string; Id string }] *)
Module taskHandle.
Record t := mk { Name : string; Id : string }.
Definition set_Name (n : string) (h : t) : t := mk n (Id h).
End taskHandle.

(** [type Task struct { Name, Image string; Args []string; Env map[string]string }] *)
Module Task.
Record t := mk
    { Name : string; Image : string; Args : list string;
      Env : gmap string string }.
Definition set_Env (e : gmap string string) (x : t) : t :=
    mk (Name x) (Image x) (Args x) e.
End Task.

(** The part of [k8s.io/api/core/v1] the shim reads or writes. *)
Module v1.
Module EnvVar.
Record t := mk { Name : string; Value : string }.
End EnvVar.

Module Container.
Record t := mk
      { Name : string; Image : string; Command : list string;
        Args : list string; Env : list EnvVar.t }.
End Container.

Module ObjectMeta.
Record t := mk
      { Name : string; Namespace : string; ResourceVersion : string;
        Labels : gmap string string }.
Definition set_ResourceVersion (rv : string) (m : t) : t :=
      mk (Name m) (Namespace m) rv (Labels m).
End ObjectMeta.

Module PodSpec.
Record t := mk { Containers : list Container.t; RestartPolicy : string }.
End PodSpec.

Module PodStatus.
Record t := mk { Phase : string; Message : string }.
Definition set_Phase (p : string) (s : t) : t := mk p (Message s).
End PodStatus.

Definition PodPending := "Pending".
Definition PodRunning := "Running".

Module Pod.
Record t := mk
      { Meta : ObjectMeta.t; Spec : PodSpec.t; Status : PodStatus.t }.
Definition set_Phase (p : string) (x : t) : t :=
      mk (Meta x) (Spec x) (PodStatus.set_Phase p (Status x)).
Definition set_ResourceVersion (rv : string) (x : t) : t :=
      mk (ObjectMeta.set_ResourceVersion rv (Meta x)) (Spec x) (Status x).
    (** [DeepCopy] rebuilds the value field by field. *)
Definition DeepCopy (x : t) : t :=
      mk (ObjectMeta.mk (ObjectMeta.Name (Meta x)) (ObjectMeta.Namespace (Meta x))
            (ObjectMeta.ResourceVersion (Meta x)) (ObjectMeta.Labels (Meta x)))
         (PodSpec.mk
            (map (fun c => Container.mk (Container.Name c) (Container.Image c)
                             (Container.Command c) (Container.Args c)
                             (map (fun e => EnvVar.mk (EnvVar.Name e) (EnvVar.Value e))
                                  (Container.Env c)))
                 (PodSpec.Containers (Spec x)))
            (PodSpec.RestartPolicy (Spec x)))
         (PodStatus.mk (PodStatus.Phase (Status x)) (PodStatus.Message (Status x))).
End Pod.
End v1.

(** [type Event struct { Type string; Object interface{} }]; the only
    objects the shim puts in an event are pods. *)
Module Event.
Record t := mk { Type_ : string; Object : v1.Pod.t }.
End Event.

(** A buffered Go channel of events: [make(chan Event, cap)]. *)
Module chan.
Record t := mk { cap : nat; buf : list Event.t }.
Definition make (n : nat) : t := mk n [].
Definition full (c : t) : bool := bool_decide (cap c ≤ length (buf c))%nat.
Definition push (ev : Event.t) (c : t) : t := mk (cap c) (buf c ++ [ev]).
End chan.

Module ECSConfig.
Record t := mk
    { ClusterName : string; SubnetId : string; SecurityGroup : string }.
End ECSConfig.

Module Config.
Record t := mk
    { ControlPlaneAddr : string; EcsEnabled : bool; DockerEnabled : bool;
      EcsConfig : option ECSConfig.t; Instances : Z }.
Definition set_ControlPlaneAddr (a : string) (c : t) : t :=
    mk a (EcsEnabled c) (DockerEnabled c) (EcsConfig c) (Instances c).
End Config.

(** What leaves the process, in program order. *)
Inductive effect :=
| CallNewEcsProvider (cfg : option ECSConfig.t)
| CallNewDockerProvider
| CallCreateTask (task : Task.t)
| CallWaitForTask (handle : taskHandle.t)
| Slog (level msg : string) (attrs : list (string * string))
| GoServerStart (addr : string).

(** [type provider interface { CreateTask; WaitForTask; GetLogs }].
    A call that never comes back (both ECS loops poll without a bound)
    is [None]. *)
Class provider (P : Type) := {
  CreateTask : P → Task.t → option (P * (taskHandle.t + error));
  WaitForTask : P → taskHandle.t → option (P * option error);
  GetLogs : P → taskHandle.t → P * (string + error)
}.

(** An interface value holding one of two implementations. *)
#[global] Instance provider_sum {A B} `{provider A} `{provider B} : provider (A + B) := {
  CreateTask p task :=
    match p with
    | inl a => prod_map inl id <$> CreateTask a task
    | inr b => prod_map inr id <$> CreateTask b task
    end;
  WaitForTask p h :=
    match p with
    | inl a => prod_map inl id <$> WaitForTask a h
    | inr b => prod_map inr id <$> WaitForTask b h
    end;
  GetLogs p h :=
    match p with
    | inl a => prod_map inl id (GetLogs a h)
    | inr b => prod_map inr id (GetLogs b h)
    end
}.

(** [type K8S struct]; [createLock] is [true] while the mutex is held. *)
Module K8S.
Record t (P : Type) := mk
    { config : Config.t; pods : list v1.Pod.t; handles : list taskHandle.t;
      updateCh : list chan.t; provider_ : P;
      createLock : bool; resourceVersion : Z }.
Arguments mk {P}.
Arguments config {P}.
Arguments pods {P}.
Arguments handles {P}.
Arguments updateCh {P}.
Arguments provider_ {P}.
Arguments createLock {P}.
Arguments resourceVersion {P}.
End K8S.

(* ================================================================== *)
(** ** The monad of shim methods *)
(* ================================================================== *)

Inductive result (S A : Type) : Type :=
| Ret (a : A) (s : S)
| Panic (msg : string) (s : S)
| Blocked (s : S).
Arguments Ret {S A}.
Arguments Panic {S A}.
Arguments Blocked {S A}.

Definition final {S A} (r : result S A) : S :=
  match r with Ret _ s | Panic _ s | Blocked s => s end.

Definition M (S A : Type) : Type := S → result S A.

Definition ret {S A} (a : A) : M S A := fun s => Ret a s.
Definition bind {S A B} (m : M S A) (f : A → M S B) : M S B :=
  fun s =>
    match m s with
    | Ret a s' => f a s'
    | Panic msg s' => Panic msg s'
    | Blocked s' => Blocked s'
    end.
Definition panic {S A} (msg : string) : M S A := fun s => Panic msg s.
Definition park {S A} : M S A := fun s => Blocked s.
Definition gets {S A} (f : S → A) : M S A := fun s => Ret (f s) s.
Definition modify {S} (f : S → S) : M S unit := fun s => Ret tt (f s).

(** [defer d; body]: [d] runs when [body] returns and when it panics, not
    while its goroutine is parked inside it. *)
Definition defer {S A} (d : S → S) (body : M S A) : M S A :=
  fun s =>
    match body s with
    | Ret a s' => Ret a (d s')
    | Panic msg s' => Panic msg (d s')
    | Blocked s' => Blocked s'
    end.

Declare Scope go_scope.
Delimit Scope go_scope with go.
Notation "x <- c1 ;; c2" := (bind c1 (fun x => c2))
  (at level 100, c1 at next level, right associativity) : go_scope.
Notation "c1 ;; c2" := (bind c1 (fun _ => c2))
  (at level 100, right associativity) : go_scope.
Local Open Scope go_scope.

(** [fmt.Sprintf("%d", x)] and [strconv.Itoa]. *)
Definition Sprintf_d (x : Z) : string := pretty x.

Definition uint64_wrap (x : Z) : Z := (x mod 2 ^ 64)%Z.
(** [int(x)] for a [uint64] on a 64-bit target. *)
Definition int_of_uint64 (x : Z) : Z :=
  (if bool_decide (x < 2 ^ 63) then x else x - 2 ^ 64)%Z.

Module K8S_set.
Section Setters.
Context {P : Type}.
Implicit Type k : K8S.t P.
Definition config (c : Config.t) k : K8S.t P :=
  K8S.mk c (K8S.pods k) (K8S.handles k) (K8S.updateCh k) (K8S.provider_ k)
    (K8S.createLock k) (K8S.resourceVersion k).
Definition pods (ps : list v1.Pod.t) k : K8S.t P :=
  K8S.mk (K8S.config k) ps (K8S.handles k) (K8S.updateCh k) (K8S.provider_ k)
    (K8S.createLock k) (K8S.resourceVersion k).
Definition handles (hs : list taskHandle.t) k : K8S.t P :=
  K8S.mk (K8S.config k) (K8S.pods k) hs (K8S.updateCh k) (K8S.provider_ k)
    (K8S.createLock k) (K8S.resourceVersion k).
Definition updateCh (cs : list chan.t) k : K8S.t P :=
  K8S.mk (K8S.config k) (K8S.pods k) (K8S.handles k) cs (K8S.provider_ k)
    (K8S.createLock k) (K8S.resourceVersion k).
Definition provider_ (p : P) k : K8S.t P :=
  K8S.mk (K8S.config k) (K8S.pods k) (K8S.handles k) (K8S.updateCh k) p
    (K8S.createLock k) (K8S.resourceVersion k).
Definition createLock (b : bool) k : K8S.t P :=
  K8S.mk (K8S.config k) (K8S.pods k) (K8S.handles k) (K8S.updateCh k)
    (K8S.provider_ k) b (K8S.resourceVersion k).
Definition resourceVersion (v : Z) k : K8S.t P :=
  K8S.mk (K8S.config k) (K8S.pods k) (K8S.handles k) (K8S.updateCh k)
    (K8S.provider_ k) (K8S.createLock k) v.
End Setters.
End K8S_set.

(** The receiver together with what the process has done so far. *)
Record world (P : Type) := World { k8s : K8S.t P; trace : list effect }.
Arguments World {P}.
Arguments k8s {P}.
Arguments trace {P}.

(* ================================================================== *)
(** ** k8s.go *)
(* ================================================================== *)

Section Shim.
Context {P : Type} `{!provider P}.

Definition emit (e : effect) : M (world P) unit :=
  modify (fun s => World (k8s s) (trace s ++ [e])).
Definition update (f : K8S.t P → K8S.t P) : M (world P) unit :=
  modify (fun s => World (f (k8s s)) (trace s)).
Definition read {A} (f : K8S.t P → A) : M (world P) A :=
  gets (fun s => f (k8s s)).

Definition slog_Info (msg : string) (attrs : list (string * string)) :=
  emit (Slog "INFO" msg attrs).
Definition slog_Error (msg : string) (attrs : list (string * string)) :=
  emit (Slog "ERROR" msg attrs).

(** [k.createLock.Lock()]: a goroutine that finds the mutex held waits. *)
Definition Lock : M (world P) unit :=
  held <- read K8S.createLock ;;
  if held then park else update (K8S_set.createLock true).
Definition Unlock : M (world P) unit := update (K8S_set.createLock false).
(** The same release as a state change, for [defer]. *)
Definition unlocked (s : world P) : world P :=
  World (K8S_set.createLock false (k8s s)) (trace s).

Definition provider_CreateTask (task : Task.t) : M (world P) (taskHandle.t + error) :=
  emit (CallCreateTask task) ;;
  p <- read K8S.provider_ ;;
  match CreateTask p task with
  | None => park
  | Some (p', r) => update (K8S_set.provider_ p') ;; ret r
  end.

Definition provider_WaitForTask (handle : taskHandle.t) : M (world P) (option error) :=
  emit (CallWaitForTask handle) ;;
  p <- read K8S.provider_ ;;
  match WaitForTask p handle with
  | None => park
  | Some (p', r) => update (K8S_set.provider_ p') ;; ret r
  end.

(** [func (k *K8S) addHandle(handle *taskHandle)] *)
Definition addHandle (handle : taskHandle.t) : M (world P) unit :=
  update (fun k => K8S_set.handles (K8S.handles k ++ [handle]) k).

(** [ch <- event] for the channel at index [i] of [k.updateCh]. *)
Definition chan_send (i : nat) (event : Event.t) : M (world P) unit :=
  chs <- read K8S.updateCh ;;
  match chs !! i with
  | None => panic "index out of range"
  | Some c =>
      if chan.full c then park
      else update (K8S_set.updateCh (<[i := chan.push event c]> chs))
  end.

(** [for _, ch := range k.updateCh { ch <- event }]: the slice is read once,
    the sends go through the shared channels. *)
Fixpoint range_send (i : nat) (chs : list chan.t) (event : Event.t) : M (world P) unit :=
  match chs with
  | [] => ret tt
  | _ :: rest => chan_send i event ;; range_send (S i) rest event
  end.

(** The pod-to-task conversion of [createPod]. *)
Definition podTask (pod : v1.Pod.t) (cc : v1.Container.t) : Task.t :=
  let task :=
    Task.mk (v1.ObjectMeta.Name (v1.Pod.Meta pod)) (v1.Container.Image cc)
      (v1.Container.Args cc) ∅ in
  foldl (fun task kv =>
           if decide (v1.EnvVar.Name kv = "SPARK_LOCAL_DIRS")
           then Task.set_Env (<[v1.EnvVar.Name kv := "/tmp"]> (Task.Env task)) task
           else Task.set_Env (<[v1.EnvVar.Name kv := v1.EnvVar.Value kv]> (Task.Env task)) task)
        task (v1.Container.Env cc).

(** The event [createPod] builds for a pod already marked running. *)
Definition addedEvent (pod : v1.Pod.t) (resourceVersion : Z) : Event.t :=
  let pod := v1.Pod.DeepCopy pod in
  let pod := v1.Pod.set_ResourceVersion (Sprintf_d resourceVersion) pod in
  Event.mk "ADDED" pod.

(** [func (k *K8S) createPod(pod v1.Pod) error] *)
Definition createPod (pod : v1.Pod.t) : M (world P) (option error) :=
  Lock ;;
  defer unlocked (
    update (fun k => K8S_set.resourceVersion (uint64_wrap (K8S.resourceVersion k + 1)) k) ;;
    cc <- match v1.PodSpec.Containers (v1.Pod.Spec pod) with
          | [cc] => ret cc
          | _ => panic "only one container per pod is supported"
          end ;;
    let task := podTask pod cc in
    r <- provider_CreateTask task ;;
    match r with
    | inr err => ret (Some err)
    | inl handle =>
        slog_Info "task created"
          [("name", taskHandle.Name handle); ("id", taskHandle.Id handle)] ;;
        let handle := taskHandle.set_Name (v1.ObjectMeta.Name (v1.Pod.Meta pod)) handle in
        addHandle handle ;;
        let pod := v1.Pod.set_Phase v1.PodRunning pod in
        update (fun k => K8S_set.pods (K8S.pods k ++ [pod]) k) ;;
        rv <- read K8S.resourceVersion ;;
        let event := addedEvent pod rv in
        chs <- read K8S.updateCh ;;
        range_send 0 chs event ;;
        ret None
    end).

(** The goroutine [postPods] starts: [go func() { ... }()]. *)
Definition postPods_func1 (pod : v1.Pod.t) : M (world P) unit :=
  err <- createPod pod ;;
  match err with
  | Some e => slog_Error "error creating pod" [("err", e)]
  | None => ret tt
  end.

(** [func (k *K8S) postPods(c echo.Context) error], given what [c.Bind]
    decoded: the handler's answer ([c.JSON(http.StatusOK, pod)] or the bind
    error) and the goroutine it started, if any. *)
Definition postPods (bound : v1.Pod.t + error)
  : (Z * v1.Pod.t + error) * option (M (world P) unit) :=
  match bound with
  | inr err => (inr err, None)
  | inl pod => (inl (200%Z, pod), Some (postPods_func1 pod))
  end.

(** The watch branch of [getPods] up to its receive loop: a fresh channel of
    capacity 1000 is appended under the lock; the result is its index. *)
Definition getPods_watch : M (world P) nat :=
  let updateCh := chan.make 1000 in
  Lock ;;
  chs <- read K8S.updateCh ;;
  update (K8S_set.updateCh (chs ++ [updateCh])) ;;
  Unlock ;;
  ret (length chs).

(** The other branch: [c.JSON(http.StatusOK, v1.PodList{Items: k.pods})]. *)
Definition getPods_list : M (world P) (Z * list v1.Pod.t) :=
  items <- read K8S.pods ;;
  ret (200%Z, items).

(** The driver task of [deploy]. *)
Definition driverTask (ControlPlaneAddr : string) (Instances : Z) : Task.t :=
  Task.mk "spark-pi" "apache/spark"
    [ "/bin/bash"; "-c";
      "cd .. && ./bin/spark-submit --master k8s://http://" +:+ ControlPlaneAddr
      +:+ ":1323 --deploy-mode client --name spark-pi --class org.apache.spark.examples.SparkPi --conf spark.executor.instances="
      +:+ Sprintf_d (int_of_uint64 Instances)
      +:+ " --conf spark.kubernetes.container.image=apache/spark:latest ./examples/jars/spark-examples_2.12-3.5.0.jar" ]
    ∅.

(** [func (k *K8S) deploy() error] *)
Definition deploy : M (world P) (option error) :=
  cfg <- read K8S.config ;;
  (if Config.DockerEnabled cfg
   then update (K8S_set.config (Config.set_ControlPlaneAddr "host.docker.internal" cfg))
   else ret tt) ;;
  cfg <- read K8S.config ;;
  if decide (Config.ControlPlaneAddr cfg = "")
  then ret (Some "control plane public address is required")
  else
    slog_Info "Using control plane address"
      [("control-plane-addr", Config.ControlPlaneAddr cfg)] ;;
    let task := driverTask (Config.ControlPlaneAddr cfg) (Config.Instances cfg) in
    r <- provider_CreateTask task ;;
    match r with
    | inr err => ret (Some err)
    | inl handle =>
        let handle := taskHandle.set_Name "spark-pi" handle in
        addHandle handle ;;
        slog_Info "deploy task created"
          [("name", taskHandle.Name handle); ("id", taskHandle.Id handle)] ;;
        provider_WaitForTask handle
    end.

(** [func (k *K8S) initServer()]: the routes are registered and the server
    is started on its own goroutine, [go func() { e.Start("0.0.0.0:1323") }()]. *)
Definition initServer : M (world P) unit :=
  emit (GoServerStart "0.0.0.0:1323").

(** [func (k *K8S) Run() error] *)
Definition Run : M (world P) (option error) :=
  initServer ;;
  deploy.

End Shim.

(** [New(config)], returning a [K8S] or an error, over the two constructors,
    whose answers depend on the AWS account and on the Docker daemon. *)
Section Construction.
Context {E D : Type}.
Variable newEcsProvider : option ECSConfig.t → E + error.
Variable newDockerProvider : D + error.

Definition New (config : Config.t) : (K8S.t (E + D) + error) * list effect :=
  if Config.EcsEnabled config && Config.DockerEnabled config
  then (inr "only one provider can be enabled", [])
  else
    let '(r, tr) :=
      if Config.EcsEnabled config
      then (sum_map inl id (newEcsProvider (Config.EcsConfig config)),
            [CallNewEcsProvider (Config.EcsConfig config)])
      else (sum_map inr id newDockerProvider, [CallNewDockerProvider]) in
    match r with
    | inr err => (inr err, tr)
    | inl provider =>
        (inl (K8S.mk config [] [] [] provider false 0%Z), tr)
    end.

End Construction.

(* ================================================================== *)
(** ** provider_ecs.go: the two polling loops *)
(* ================================================================== *)

(** The AWS SDK passes strings by pointer, so the model keeps the strings the
    process has allocated: a pointer is an address in that store or nil, and
    [==] on pointers compares addresses. *)
Module ecs.

Definition ptr := option nat.
Definition ptr_eqb (p q : ptr) : bool := bool_decide (p = q).

(** Allocated strings, the number of DescribeTasks calls answered so far and
    the seconds spent in [time.Sleep]. *)
Record world := World { heap : list string; polls : nat; slept : nat }.

(** [aws.String(v)] is [&v] for a fresh copy of [v]. *)
Definition aws_String (v : string) : M world ptr :=
  fun w => Ret (Some (length (heap w))) (World (heap w ++ [v]) (polls w) (slept w)).

(** [*p] *)
Definition deref (p : ptr) : M world string :=
  fun w =>
    match p ≫= (heap w !!.) with
    | Some v => Ret v w
    | None => Panic "runtime error: invalid memory address or nil pointer dereference" w
    end.

Definition time_Sleep (seconds : nat) : M world unit :=
  modify (fun w => World (heap w) (polls w) (slept w + seconds)).

(** [ecs.Task], the two fields the provider reads. *)
Module SdkTask.
Record t := mk { TaskArn : ptr; LastStatus : ptr }.
End SdkTask.

Module DescribeTasksInput.
Record t := mk { Cluster : ptr; Tasks : list ptr }.
End DescribeTasksInput.

Module RunTaskInput.
Record t := mk
  { Cluster : string; TaskDefinition : string; LaunchType : string; Count : Z;
    AssignPublicIp : string; SecurityGroups : list string; Subnets : list string;
    OverrideName : string; OverrideCommand : list string;
    OverrideEnvironment : list (string * string) }.
End RunTaskInput.

(** The service as the provider sees it: what RunTask answers (the ARN of
    each started task) and what the [n]-th DescribeTasks call answers for a
    cluster and a task id (the last status of each task found; [None] is a
    task without one). *)
Record ECS := mkECS
  { RunTask_reply : RunTaskInput.t → list string + error;
    DescribeTasks_reply : string → string → nat → list (option string) + error }.

(** The answer of the service is unmarshalled into fresh strings. *)
Fixpoint unmarshal (statuses : list (option string)) : M world (list SdkTask.t) :=
  match statuses with
  | [] => ret []
  | None :: rest =>
      ts <- unmarshal rest ;;
      ret (SdkTask.mk None None :: ts)
  | Some st :: rest =>
      p <- aws_String st ;;
      ts <- unmarshal rest ;;
      ret (SdkTask.mk None p :: ts)
  end.

Definition DescribeTasks (svc : ECS) (input : DescribeTasksInput.t)
  : M world (list SdkTask.t + error) :=
  cluster <- deref (DescribeTasksInput.Cluster input) ;;
  task <- match DescribeTasksInput.Tasks input with
          | [t] => deref t
          | _ => ret ""
          end ;;
  n <- gets polls ;;
  modify (fun w => World (heap w) (S (polls w)) (slept w)) ;;
  match DescribeTasks_reply svc cluster task n with
  | inr err => ret (inr err)
  | inl statuses => ts <- unmarshal statuses ;; ret (inl ts)
  end.

(** [xs[0]] *)
Definition index0 {A} (xs : list A) : M world A :=
  match xs with
  | x :: _ => ret x
  | [] => panic "runtime error: index out of range [0] with length 0"
  end.

Record ecsProvider := mkProvider
  { config : ECSConfig.t; svc : ECS;
    taskDefinitionName : string; taskDefinitionContainerName : string }.

(** [func (e *ecsProvider) WaitForTask(handle *taskHandle) error]; with
    [fuel] polls allowed, [Blocked] is a loop that is still running after
    them. *)
Fixpoint WaitForTask (fuel : nat) (e : ecsProvider) (handle : taskHandle.t)
  : M world (option error) :=
  match fuel with
  | 0 => park
  | S fuel =>
      cluster <- aws_String (ECSConfig.ClusterName (config e)) ;;
      task <- aws_String (taskHandle.Id handle) ;;
      describeTasksOutput <- DescribeTasks (svc e) (DescribeTasksInput.mk cluster [task]) ;;
      match describeTasksOutput with
      | inr err => ret (Some err)
      | inl tasks =>
          t0 <- index0 tasks ;;
          stopped <- aws_String "STOPPED" ;;
          if ptr_eqb (SdkTask.LastStatus t0) stopped
          then ret None
          else time_Sleep 1 ;; WaitForTask fuel e handle
      end
  end.

(** The loop that ends [CreateTask], which waits for "RUNNING". *)
Fixpoint CreateTask_poll (fuel : nat) (e : ecsProvider) (handle : taskHandle.t)
  : M world (taskHandle.t + error) :=
  match fuel with
  | 0 => park
  | S fuel =>
      cluster <- aws_String (ECSConfig.ClusterName (config e)) ;;
      task <- aws_String (taskHandle.Id handle) ;;
      describeTasksOutput <- DescribeTasks (svc e) (DescribeTasksInput.mk cluster [task]) ;;
      match describeTasksOutput with
      | inr err => ret (inr err)
      | inl tasks =>
          t0 <- index0 tasks ;;
          status <- deref (SdkTask.LastStatus t0) ;;
          if decide (status = "RUNNING")
          then ret (inl handle)
          else time_Sleep 5 ;; CreateTask_poll fuel e handle
      end
  end.

(** [func (e *ecsProvider) CreateTask(task *Task) (handle, error)].  The
    request is passed to the service by value (the strings it is built from
    are not compared later, so they are not kept in the store), the
    environment override lists the map in the order of [map_to_list], and
    the provider's logger is left out. *)
Definition CreateTask (fuel : nat) (e : ecsProvider) (task : Task.t)
  : M world (taskHandle.t + error) :=
  let envOverride := map_to_list (Task.Env task) in
  let input :=
    RunTaskInput.mk (ECSConfig.ClusterName (config e)) (taskDefinitionName e)
      "FARGATE" 1 "ENABLED" [ECSConfig.SecurityGroup (config e)]
      [ECSConfig.SubnetId (config e)]
      (taskDefinitionContainerName e) (Task.Args task) envOverride in
  match RunTask_reply (svc e) input with
  | inr err => ret (inr err)
  | inl arns =>
      arn <- index0 arns ;;
      let handle := taskHandle.mk "" arn in
      CreateTask_poll fuel e handle
  end.

(** [func (e *ecsProvider) GetLogs(handle *taskHandle) (string, error)] *)
Definition GetLogs (e : ecsProvider) (handle : taskHandle.t) : string + error :=
  inl "TODO".

(** A service on which every poll finds the task stopped. *)
Definition stopped_service : ECS :=
  mkECS (fun _ => inl ["arn:task/1"]) (fun _ _ _ => inl [Some "STOPPED"]).

(** A service on which the task is reported running from poll [n] on. *)
Definition running_from (n : nat) : ECS :=
  mkECS (fun _ => inl ["arn:task/1"])
        (fun _ _ i => inl [Some (if bool_decide (n ≤ i)%nat then "RUNNING" else "PENDING")]).

Definition a_provider (s : ECS) : ecsProvider :=
  mkProvider (ECSConfig.mk "sparkanywhere-cluster" "subnet-1" "sg-1") s
    "sparkanywhere:1" "spark".

Definition w0 : world := World [] 0 0.

End ecs.

(** A provider for examples: it answers successive CreateTask calls from a
    script and does not return once the script is used up. *)
Module scripted.
Record t := mk { replies : list (taskHandle.t + error) }.

#[global] Instance scripted_provider : provider t := {
  CreateTask p _ :=
    match replies p with
    | [] => None
    | r :: rest => Some (mk rest, r)
    end;
  WaitForTask p _ := Some (p, None);
  GetLogs p _ := (p, inl "")
}.
End scripted.

(* ================================================================== *)
(** ** Specification-side functions *)
(* ================================================================== *)

(** What a broadcast does to the subscriber channels, and whether it got
    through all of them. *)
Fixpoint deliver (event : Event.t) (chs : list chan.t) : list chan.t * bool :=
  match chs with
  | [] => ([], true)
  | c :: rest =>
      if chan.full c then (c :: rest, false)
      else let '(rest', ok) := deliver event rest in (chan.push event c :: rest', ok)
  end.

(** The value a name has in a container's environment list: its last entry. *)
Definition env_last (name : string) (env : list v1.EnvVar.t) : option string :=
  v1.EnvVar.Value <$> last (filter (λ kv, v1.EnvVar.Name kv = name) env).

(** The tasks [ecs.unmarshal] builds when the store holds [base] strings:
    each status goes to the next free address. *)
Fixpoint tasks_at (base : nat) (statuses : list (option string)) : list ecs.SdkTask.t :=
  match statuses with
  | [] => []
  | None :: rest => ecs.SdkTask.mk None None :: tasks_at base rest
  | Some _ :: rest => ecs.SdkTask.mk None (Some base) :: tasks_at (S base) rest
  end.

(** Serialised creations, as the create lock orders them. *)
Fixpoint createPods {P} `{!provider P} (attempts : list v1.Pod.t)
  : M (world P) (list (option error)) :=
  match attempts with
  | [] => ret []
  | pod :: rest =>
      err <- createPod pod ;;
      errs <- createPods rest ;;
      ret (err :: errs)
  end.

(** The events a run of attempts broadcasts, given which of them failed and
    the counter [rv] it started from: attempt number [j] (from 1), if it
    succeeds, broadcasts its pod stamped with [rv + j], wrapped to 64 bits. *)
Fixpoint stamped (rv : Z) (attempts : list v1.Pod.t) (errs : list (option error))
  : list Event.t :=
  match attempts, errs with
  | pod :: attempts, err :: errs =>
      match err with
      | None =>
          addedEvent (v1.Pod.set_Phase v1.PodRunning pod) (uint64_wrap (rv + 1))
          :: stamped (rv + 1) attempts errs
      | Some _ => stamped (rv + 1) attempts errs
      end
  | _, _ => []
  end.

(** A channel with more events queued behind the ones it holds. *)
Definition extended (events : list Event.t) (c : chan.t) : chan.t :=
  chan.mk (chan.cap c) (chan.buf c ++ events).

(** The descriptors such a run appends to [k.pods]. *)
Fixpoint listed (attempts : list v1.Pod.t) (errs : list (option error))
  : list v1.Pod.t :=
  match attempts, errs with
  | pod :: attempts, err :: errs =>
      match err with
      | None => v1.Pod.set_Phase v1.PodRunning pod :: listed attempts errs
      | Some _ => listed attempts errs
      end
  | _, _ => []
  end.

(** The value [createPod] gives an environment variable. *)
Definition task_value (name value : string) : string :=
  if decide (name = "SPARK_LOCAL_DIRS") then "/tmp" else value.

(* ================================================================== *)
(** ** Worked inputs *)
(* ================================================================== *)

Module Examples.

Definition executor : v1.Container.t :=
  v1.Container.mk "spark-kubernetes-executor" "apache/spark:latest" []
    ["executor"]
    [ v1.EnvVar.mk "SPARK_LOCAL_DIRS" "/var/data/spark-1f2e";
      v1.EnvVar.mk "SPARK_EXECUTOR_ID" "1";
      v1.EnvVar.mk "SPARK_EXECUTOR_ID" "2" ].

Definition sidecar : v1.Container.t :=
  v1.Container.mk "sidecar" "busybox" [] [] [].

Definition pod_with (name phase : string) (containers : list v1.Container.t) : v1.Pod.t :=
  v1.Pod.mk (v1.ObjectMeta.mk name "default" "" ∅)
            (v1.PodSpec.mk containers "Never")
            (v1.PodStatus.mk phase "").

Definition exec1 : v1.Pod.t := pod_with "spark-pi-exec-1" v1.PodPending [executor].
Definition exec2 : v1.Pod.t := pod_with "spark-pi-exec-2" v1.PodPending [executor].
Definition no_container : v1.Pod.t := pod_with "empty" v1.PodPending [].
Definition two_containers : v1.Pod.t :=
  pod_with "pair" v1.PodPending [executor; sidecar].

Definition ecs_only (addr : string) : Config.t :=
  Config.mk addr true false (Some (ECSConfig.mk "sparkanywhere-cluster" "subnet-1" "sg-1")) 1.
Definition docker_only (addr : string) : Config.t :=
  Config.mk addr false true (Some (ECSConfig.mk "" "" "")) 1.
Definition both_enabled : Config.t :=
  Config.mk "10.0.0.7" true true (Some (ECSConfig.mk "" "" "")) 1.
Definition no_flag : Config.t :=
  Config.mk "" false false (Some (ECSConfig.mk "" "" "")) 1.

(** A shim with the given subscriber channels over a scripted provider. *)
Definition shim (cfg : Config.t) (chs : list chan.t)
    (replies : list (taskHandle.t + error)) : world scripted.t :=
  World (K8S.mk cfg [] [] chs (scripted.mk replies) false 0) [].

Definition started (id : string) : taskHandle.t + error := inl (taskHandle.mk "" id).
Definition refused : taskHandle.t + error := inr "launch refused".

End Examples.

Ltac run_go :=
  unfold provider_CreateTask, provider_WaitForTask, slog_Info, slog_Error,
    addHandle, initServer, Lock, Unlock, emit, update, read, defer, unlocked,
    bind, gets, modify, ret, panic, park;
  simpl.

(* ================================================================== *)
(** ** provider_ecs.go: construction *)
(* ================================================================== *)

(** The AWS account as [newEcsProvider] sees it.  A call is answered by the
    account; the calls made are recorded in order. *)
Module aws.

(** [strings.Contains(s, substr)] *)
Fixpoint Contains (s substr : string) : bool :=
  String.prefix substr s
  || match s with
     | EmptyString => false
     | String _ rest => Contains rest substr
     end.

(** [xs[0]] *)
Definition index0 {S A} (xs : list A) : M S A :=
  match xs with
  | x :: _ => ret x
  | [] => panic "runtime error: index out of range [0] with length 0"
  end.

Inductive call :=
| NewSession
| DescribeClusters (cluster : string)
| ListTaskDefinitionFamilies
| DescribeTaskDefinition (family : string)
| DescribeSubnets (subnet : string)
| DescribeSecurityGroups (group : string)
| Log (msg : string) (attrs : list (string * string)).

(** What the account answers: the clusters found under a name, the
    task-definition families, the revision and container names of a family's
    latest definition, and whether describing a subnet or a security group
    fails. *)
Record Account := mkAccount
  { NewSession_reply : option error;
    DescribeClusters_reply : string → list string + error;
    ListTaskDefinitionFamilies_reply : list string + error;
    DescribeTaskDefinition_reply : string → Z * list string + error;
    DescribeSubnets_reply : string → option error;
    DescribeSecurityGroups_reply : string → option error;
    service : ecs.ECS }.

Definition made (c : call) : M (list call) unit := modify (λ tr, tr ++ [c]).

(** [func newEcsProvider(config *ECSConfig) (provider, error)] *)
Definition newEcsProvider (acct : Account) (config : option ECSConfig.t)
  : M (list call) (ecs.ecsProvider + error) :=
  made NewSession ;;
  match NewSession_reply acct with
  | Some err => ret (inr err)
  | None =>
    config <- match config with
              | Some c => ret c
              | None => panic "runtime error: invalid memory address or nil pointer dereference"
              end ;;
    made (DescribeClusters (ECSConfig.ClusterName config)) ;;
    match DescribeClusters_reply acct (ECSConfig.ClusterName config) with
    | inr err => ret (inr err)
    | inl clusters =>
      if decide (length clusters = 0)
      then ret (inr ("cluster not found: " +:+ ECSConfig.ClusterName config))
      else
        made ListTaskDefinitionFamilies ;;
        match ListTaskDefinitionFamilies_reply acct with
        | inr err => ret (inr err)
        | inl families =>
          let sparkAnywhereTaskDefs :=
            filter (λ x, Contains x "sparkanywhere" = true) families in
          if decide (length sparkAnywhereTaskDefs = 0)
          then ret (inr "no task definition found")
          else if decide (1 < length sparkAnywhereTaskDefs)
          then ret (inr "more than one task definition found")
          else
            taskDef <- index0 sparkAnywhereTaskDefs ;;
            made (DescribeTaskDefinition taskDef) ;;
            match DescribeTaskDefinition_reply acct taskDef with
            | inr err => ret (inr err)
            | inl (revision, containers) =>
              let taskDefinitionName := taskDef +:+ ":" +:+ Sprintf_d revision in
              taskDefinitionContainerName <- index0 containers ;;
              made (Log "Using task definitione" [("name", taskDefinitionName)]) ;;
              made (Log "Detected task primary container"
                      [("name", taskDefinitionContainerName)]) ;;
              made (DescribeSubnets (ECSConfig.SubnetId config)) ;;
              match DescribeSubnets_reply acct (ECSConfig.SubnetId config) with
              | Some _ =>
                  ret (inr ("subnet not found: " +:+ ECSConfig.SubnetId config))
              | None =>
                made (DescribeSecurityGroups (ECSConfig.SecurityGroup config)) ;;
                match DescribeSecurityGroups_reply acct (ECSConfig.SecurityGroup config) with
                | Some _ =>
                    ret (inr ("security group not found: "
                              +:+ ECSConfig.SecurityGroup config))
                | None =>
                    ret (inl (ecs.mkProvider config (service acct)
                                taskDefinitionName taskDefinitionContainerName))
                end
              end
            end
        end
    end
  end.

End aws.

(* ================================================================== *)
(** ** provider_docker.go *)
(* ================================================================== *)

(** The Docker engine as the provider sees it, with the calls made to it. *)
Module docker.

Definition dockerNetworkName : string := "spark-network".

(** [container.Config], the fields the provider sets. *)
Module ContainerConfig.
Record t := mk { Image : string; Cmd : list string; Env : list string }.
End ContainerConfig.

Inductive call :=
| NewClientWithOpts
| NegotiateAPIVersion
| NetworkInspect (name : string)
| NetworkCreate (name : string)
| ContainerCreate (config : ContainerConfig.t) (NetworkMode : string)
| ContainerStart (id : string)
| ContainerWait (id : string)
| ContainerLogs (id : string)
| Log (msg : string) (attrs : list (string * string)).

(** What [ContainerWait]'s two channels deliver: an error, the exit status
    of the container, or nothing at all. *)
Inductive waited :=
| WaitError (err : error)
| WaitExit (status : Z)
| WaitNever.

(** The engine's answers.  [ContainerCreate] is answered by the number of
    containers created before; the logs of a container are either refused
    or a stream that [stdcopy.StdCopy] turns into text or fails on. *)
Record Engine := mkEngine
  { NewClientWithOpts_reply : option error;
    NetworkInspect_reply : string → option error;
    NetworkCreate_reply : string → option error;
    ContainerCreate_reply : nat → ContainerConfig.t → string + error;
    ContainerStart_reply : string → option error;
    ContainerWait_reply : string → waited;
    ContainerLogs_reply : string → (string + error) + error }.

(** [type dockerProvider struct], with what its client has done. *)
Record dockerProvider := mkProvider
  { cli : Engine; calls : list call; created : nat }.

Definition called (c : call) (d : dockerProvider) : dockerProvider :=
  mkProvider (cli d) (calls d ++ [c]) (created d).

(** [func newDockerProvider() (provider, error)]: the calls made, and the
    provider or the error. *)
Definition newDockerProvider (engine : Engine) : list call * (dockerProvider + error) :=
  match NewClientWithOpts_reply engine with
  | Some err => ([NewClientWithOpts], inr err)
  | None =>
      match NetworkInspect_reply engine dockerNetworkName with
      | None =>
          let tr := [NewClientWithOpts; NegotiateAPIVersion;
                     NetworkInspect dockerNetworkName] in
          (tr, inl (mkProvider engine tr 0))
      | Some _ =>
          let tr := [NewClientWithOpts; NegotiateAPIVersion;
                     NetworkInspect dockerNetworkName;
                     Log "creating network" [("name", dockerNetworkName)];
                     NetworkCreate dockerNetworkName] in
          match NetworkCreate_reply engine dockerNetworkName with
          | Some err => (tr, inr err)
          | None => (tr, inl (mkProvider engine tr 0))
          end
      end
  end.

(** The environment of the container: one [name=value] per entry of the
    map.  Go ranges over a map in no fixed order; the model takes the order
    of [map_to_list]. *)
Definition container_env (env : gmap string string) : list string :=
  (λ kv, kv.1 +:+ "=" +:+ kv.2) <$> map_to_list env.

(** [func (d *dockerProvider) CreateTask(task *Task) (handle, error)] *)
Definition CreateTask (d : dockerProvider) (task : Task.t)
  : dockerProvider * (taskHandle.t + error) :=
  let config :=
    ContainerConfig.mk (Task.Image task) (Task.Args task) (container_env (Task.Env task)) in
  let d := called (ContainerCreate config dockerNetworkName) d in
  match ContainerCreate_reply (cli d) (created d) config with
  | inr err => (d, inr err)
  | inl id =>
      let d := mkProvider (cli d) (calls d) (S (created d)) in
      let d := called (ContainerStart id) d in
      match ContainerStart_reply (cli d) id with
      | Some err => (d, inr err)
      | None => (d, inl (taskHandle.mk "" id))
      end
  end.

(** [func (d *dockerProvider) WaitForTask(handle *taskHandle) error]; [None]
    is a select that never fires. *)
Definition WaitForTask (d : dockerProvider) (handle : taskHandle.t)
  : option (dockerProvider * option error) :=
  let d := called (ContainerWait (taskHandle.Id handle)) d in
  match ContainerWait_reply (cli d) (taskHandle.Id handle) with
  | WaitError err => Some (d, Some err)
  | WaitExit _ => Some (d, None)
  | WaitNever => None
  end.

(** [func (d *dockerProvider) GetLogs(handle *taskHandle) (string, error)] *)
Definition GetLogs (d : dockerProvider) (handle : taskHandle.t)
  : dockerProvider * (string + error) :=
  let d := called (ContainerLogs (taskHandle.Id handle)) d in
  match ContainerLogs_reply (cli d) (taskHandle.Id handle) with
  | inr err => (d, inr err)
  | inl (inr err) => (d, inr err)
  | inl (inl text) => (d, inl text)
  end.

(** [var _ provider = &dockerProvider{}] *)
#[global] Instance docker_provider : provider dockerProvider := {
  CreateTask d task := Some (CreateTask d task);
  WaitForTask := WaitForTask;
  GetLogs := GetLogs
}.

End docker.

(* ================================================================== *)
(** ** k8s.go: the watch loop and the logs *)
(* ================================================================== *)

(** A watch handler: the shim it runs in and the chunks it has written and
    flushed on its response. *)
Record watcher (P : Type) := Watcher { shim_ : world P; flushed : list string }.
Arguments Watcher {P}.
Arguments shim_ {P}.
Arguments flushed {P}.

Section Watch.
Context {P : Type} `{!provider P}.
(** [json.Marshal(event)], and whether the request's context is done when
    the handler looks, given how many chunks it has flushed. *)
Variable json_Marshal : Event.t → string + error.
Variable ctx_Done : nat → bool.

(** [<-updateCh] for the channel at index [i]: an empty channel makes the
    receiver wait. *)
Definition chan_recv (i : nat) : M (watcher P) Event.t :=
  fun s =>
    let k := k8s (shim_ s) in
    match K8S.updateCh k !! i with
    | None => Panic "index out of range" s
    | Some c =>
        match chan.buf c with
        | [] => Blocked s
        | event :: rest =>
            Ret event
              (Watcher (World (K8S_set.updateCh
                                 (<[i := chan.mk (chan.cap c) rest]> (K8S.updateCh k)) k)
                              (trace (shim_ s)))
                       (flushed s))
        end
    end.

(** [for event := range updateCh { ... }], run until the handler returns or
    has to wait: the loop takes one iteration per event that is [pending] in
    its channel, and waits on the receive when none is left (nobody closes
    the channel). *)
Fixpoint getPods_range (i : nat) (pending : list Event.t) : M (watcher P) (option error) :=
  match pending with
  | [] => park
  | _ :: pending =>
      event <- chan_recv i ;;
      modify (λ s, Watcher (World (k8s (shim_ s))
                              (trace (shim_ s) ++ [Slog "INFO" "sending event" []]))
                           (flushed s)) ;;
      match json_Marshal event with
      | inr err => ret (Some err)
      | inl data =>
          modify (λ s, Watcher (shim_ s) (flushed s ++ [data])) ;;
          n <- gets (λ s, length (flushed s)) ;;
          if ctx_Done n then ret None else getPods_range i pending
      end
  end.

(** A handler waiting on channel [i] that is woken up. *)
Definition getPods_resume (i : nat) : M (watcher P) (option error) :=
  fun s =>
    match K8S.updateCh (k8s (shim_ s)) !! i with
    | None => Panic "index out of range" s
    | Some c => getPods_range i (chan.buf c) s
    end.

End Watch.

Section Logs.
Context {P : Type} `{!provider P}.
(** [filepath.Join], [os.MkdirAll(path, 0755)], [os.WriteFile(path, data,
    0644)] and [time.Now().UTC().UnixMilli()]. *)
Variable filepath_Join : list string → string.
Variable MkdirAll : string → option error.
Variable WriteFile : string → string → option error.
Variable now : Z.

(** [for _, handle := range k.handles { ... }] of [GatherLogs], from a
    provider and the files written so far (path and content, in order). *)
Fixpoint gather (logDir : string) (handles : list taskHandle.t)
    (p : P) (files : list (string * string))
  : option error * P * list (string * string) :=
  match handles with
  | [] => (None, p, files)
  | handle :: handles =>
      let '(p, logs) := GetLogs p handle in
      match logs with
      | inr err => (Some err, p, files)
      | inl logs =>
          let path := filepath_Join [logDir; taskHandle.Name handle +:+ ".log"] in
          match WriteFile path logs with
          | Some err => (Some err, p, files)
          | None => gather logDir handles p (files ++ [(path, logs)])
          end
      end
  end.

(** [func (k *K8S) GatherLogs() error]: the error, the shim afterwards and
    the files written. *)
Definition GatherLogs (s : world P) : option error * world P * list (string * string) :=
  let tr := trace s ++ [Slog "INFO" "Gathering logs..." []] in
  let logDir := filepath_Join ["logs"; Sprintf_d now] in
  match MkdirAll logDir with
  | Some err => (Some err, World (k8s s) tr, [])
  | None =>
      let '(err, p, files) :=
        gather logDir (K8S.handles (k8s s)) (K8S.provider_ (k8s s)) [] in
      (err, World (K8S_set.provider_ p (k8s s)) tr, files)
  end.

End Logs.

(** More worked inputs. *)
Module Inputs.

(** A service whose DescribeTasks fails from poll [n] on, and reports the
    task running before. *)
Definition failing_from (n : nat) : ecs.ECS :=
  ecs.mkECS (λ _, inl ["arn:task/1"])
    (λ _ _ i, if bool_decide (n ≤ i) then inr "ThrottlingException" else inl [Some "RUNNING"]).

(** A service that refuses to run tasks, one that starts none, and one that
    reports a task without a status. *)
Definition refusing : ecs.ECS :=
  ecs.mkECS (λ _, inr "AccessDeniedException") (λ _ _ _, inl [Some "RUNNING"]).
Definition starting_none : ecs.ECS :=
  ecs.mkECS (λ _, inl []) (λ _ _ _, inl [Some "RUNNING"]).
Definition without_status : ecs.ECS :=
  ecs.mkECS (λ _, inl ["arn:task/1"]) (λ _ _ _, inl [None]).
Definition finding_none : ecs.ECS :=
  ecs.mkECS (λ _, inl ["arn:task/1"]) (λ _ _ _, inl []).

Definition ecs_config : ECSConfig.t :=
  ECSConfig.mk "sparkanywhere-cluster" "subnet-1" "sg-1".

(** An account with the given task-definition families in which everything
    else is in place, but for the subnets and groups listed as missing. *)
Definition account (families missing : list string) : aws.Account :=
  aws.mkAccount None (λ name, inl [name]) (inl families)
    (λ _, inl (7%Z, ["spark"; "log-router"]))
    (λ id, if bool_decide (id ∈ missing) then Some "InvalidSubnetID.NotFound" else None)
    (λ id, if bool_decide (id ∈ missing) then Some "RequestExpired" else None)
    ecs.stopped_service.

(** An engine that names its containers [c-0], [c-1], ..., with the network
    missing or not and the start of the listed containers failing. *)
Definition engine (network_missing : bool) (unstartable : list string) : docker.Engine :=
  docker.mkEngine None
    (λ _, if network_missing then Some "network spark-network not found" else None)
    (λ _, None)
    (λ n _, inl ("c-" +:+ pretty n))
    (λ id, if bool_decide (id ∈ unstartable) then Some "port is already allocated" else None)
    (λ _, docker.WaitExit 1)
    (λ id, inl (inl ("logs of " +:+ id))).

(** An engine that cannot create containers. *)
Definition engine_down : docker.Engine :=
  docker.mkEngine None (λ _, None) (λ _, None)
    (λ _ _, inr "No such image: apache/spark:latest")
    (λ _, None) (λ _, docker.WaitNever) (λ _, inr "No such container").

Definition docker_shim (e : docker.Engine) : world docker.dockerProvider :=
  World (K8S.mk (Examples.docker_only "") [] [] [] (docker.mkProvider e [] 0) false 0) [].

End Inputs.

(** The launch request [ecs.CreateTask] sends for a task. *)
Definition run_task_input (e : ecs.ecsProvider) (task : Task.t) : ecs.RunTaskInput.t :=
  ecs.RunTaskInput.mk (ECSConfig.ClusterName (ecs.config e)) (ecs.taskDefinitionName e)
    "FARGATE" 1 "ENABLED" [ECSConfig.SecurityGroup (ecs.config e)]
    [ECSConfig.SubnetId (ecs.config e)]
    (ecs.taskDefinitionContainerName e) (Task.Args task) (map_to_list (Task.Env task)).

(** The path [GatherLogs] writes the logs of a handle to. *)
Definition log_path (filepath_Join : list string → string) (now : Z) (handle : taskHandle.t)
  : string :=
  filepath_Join [filepath_Join ["logs"; Sprintf_d now]; taskHandle.Name handle +:+ ".log"].

(** [filepath.Join] on names without separators or dots. *)
Definition join_slash (parts : list string) : string :=
  match parts with
  | [] => ""
  | p :: ps => foldl (λ acc x, acc +:+ "/" +:+ x) p ps
  end.

Ltac run_aws :=
  unfold aws.newEcsProvider, aws.made, aws.index0, bind, modify, ret, panic; simpl.

(* ================================================================== *)
(** ** Basic facts *)
(* ================================================================== *)

Lemma map_id_ext {A} (f : A → A) (l : list A) :
  (∀ x, f x = x) → map f l = l.
Proof.
  intros Hf. induction l as [|x l IH]; simpl; [done|]. by rewrite Hf, IH.
Qed.

Lemma DeepCopy_id (pod : v1.Pod.t) : v1.Pod.DeepCopy pod = pod.
Proof.
  destruct pod as [[n ns rv lbl] [cs rp] [ph msg]]. unfold v1.Pod.DeepCopy; simpl.
  f_equal. f_equal. apply map_id_ext. intros [cn ci cc ca ce]; simpl.
  f_equal. apply map_id_ext. by intros [].
Qed.

Lemma addedEvent_eq pod rv :
  addedEvent pod rv = Event.mk "ADDED" (v1.Pod.set_ResourceVersion (Sprintf_d rv) pod).
Proof. unfold addedEvent. by rewrite DeepCopy_id. Qed.

Lemma deliver_ok event chs chs' :
  deliver event chs = (chs', true) → chs' = map (chan.push event) chs.
Proof.
  revert chs'. induction chs as [|c rest IH]; simpl; intros chs' H.
  - by inversion H.
  - destruct (chan.full c); [done|].
    destruct (deliver event rest) as [rest' ok]. inversion H; subst.
    f_equal. by apply IH.
Qed.

Lemma deliver_first_full event pre c post :
  Forall (λ c, chan.full c = false) pre → chan.full c = true →
  deliver event (pre ++ c :: post) = (map (chan.push event) pre ++ c :: post, false).
Proof.
  intros Hpre Hc. induction Hpre as [|x pre Hx _ IH]; simpl.
  - by rewrite Hc.
  - by rewrite Hx, IH.
Qed.

Lemma deliver_none_full event chs :
  Forall (λ c, chan.full c = false) chs →
  deliver event chs = (map (chan.push event) chs, true).
Proof.
  induction 1 as [|x l Hx _ IH]; simpl; [done|]. by rewrite Hx, IH.
Qed.

Section ShimFacts.
Context {P : Type} `{!provider P}.

Lemma range_send_deliver event chs :
  ∀ pre cfg ps hs (p : P) lock rv tr,
    range_send (length pre) chs event
      (World (K8S.mk cfg ps hs (pre ++ chs) p lock rv) tr)
    = (let '(chs', ok) := deliver event chs in
       let s' := World (K8S.mk cfg ps hs (pre ++ chs') p lock rv) tr in
       if ok then Ret tt s' else Blocked s').
Proof.
  induction chs as [|c rest IH]; intros pre cfg ps hs p lock rv tr; simpl.
  - done.
  - unfold bind at 1. unfold chan_send, bind, read, gets; simpl.
    rewrite list_lookup_middle by done.
    destruct (chan.full c) eqn:Hfull; simpl; [done|].
    unfold update, modify; simpl. unfold K8S_set.updateCh; simpl.
    rewrite (insert_app_r_alt pre (c :: rest) (length pre)) by lia.
    rewrite Nat.sub_diag; simpl.
    specialize (IH (pre ++ [chan.push event c]) cfg ps hs p lock rv tr).
    rewrite length_app in IH; simpl in IH.
    replace (length pre + 1) with (S (length pre)) in IH by lia.
    rewrite <- !app_assoc in IH; simpl in IH. rewrite IH.
    destruct (deliver event rest) as [rest' ok].
    by rewrite <- app_assoc.
Qed.

End ShimFacts.


Section CreatePodFacts.
Context {P : Type} `{!provider P}.
Implicit Types (p : P) (pod : v1.Pod.t) (cc : v1.Container.t).

Lemma createPod_locked pod (s : world P) :
  K8S.createLock (k8s s) = true → createPod pod s = Blocked s.
Proof.
  destruct s as [[cfg ps hs chs p lock rv] tr]; simpl; intros ->.
  unfold createPod. by run_go.
Qed.

Lemma createPod_panic pod cfg ps hs chs p rv tr :
  length (v1.PodSpec.Containers (v1.Pod.Spec pod)) ≠ 1 →
  createPod pod (World (K8S.mk cfg ps hs chs p false rv) tr)
  = Panic "only one container per pod is supported"
      (World (K8S.mk cfg ps hs chs p false (uint64_wrap (rv + 1))) tr).
Proof.
  intros Hlen. unfold createPod. run_go.
  destruct (v1.PodSpec.Containers (v1.Pod.Spec pod)) as [|c [|c' l]]; simpl in *;
    try done.
Qed.

Lemma createPod_provider_error pod cc cfg ps hs chs p p' err rv tr :
  v1.PodSpec.Containers (v1.Pod.Spec pod) = [cc] →
  CreateTask p (podTask pod cc) = Some (p', inr err) →
  createPod pod (World (K8S.mk cfg ps hs chs p false rv) tr)
  = Ret (Some err)
      (World (K8S.mk cfg ps hs chs p' false (uint64_wrap (rv + 1)))
             (tr ++ [CallCreateTask (podTask pod cc)])).
Proof.
  intros Hcc Hcreate. unfold createPod. run_go. rewrite Hcc. run_go.
  rewrite Hcreate. by run_go.
Qed.

Lemma createPod_provider_hang pod cc cfg ps hs chs p rv tr :
  v1.PodSpec.Containers (v1.Pod.Spec pod) = [cc] →
  CreateTask p (podTask pod cc) = None →
  createPod pod (World (K8S.mk cfg ps hs chs p false rv) tr)
  = Blocked
      (World (K8S.mk cfg ps hs chs p true (uint64_wrap (rv + 1)))
             (tr ++ [CallCreateTask (podTask pod cc)])).
Proof.
  intros Hcc Hcreate. unfold createPod. run_go. rewrite Hcc. run_go.
  rewrite Hcreate. by run_go.
Qed.

Lemma createPod_created pod cc cfg ps hs chs p p' handle rv tr :
  v1.PodSpec.Containers (v1.Pod.Spec pod) = [cc] →
  CreateTask p (podTask pod cc) = Some (p', inl handle) →
  createPod pod (World (K8S.mk cfg ps hs chs p false rv) tr)
  = (let rv' := uint64_wrap (rv + 1) in
     let running := v1.Pod.set_Phase v1.PodRunning pod in
     let named := taskHandle.set_Name (v1.ObjectMeta.Name (v1.Pod.Meta pod)) handle in
     let tr' := tr ++ [CallCreateTask (podTask pod cc);
                       Slog "INFO" "task created"
                         [("name", taskHandle.Name handle); ("id", taskHandle.Id handle)]] in
     let '(chs', ok) := deliver (addedEvent running rv') chs in
     if ok
     then Ret None (World (K8S.mk cfg (ps ++ [running]) (hs ++ [named]) chs' p' false rv') tr')
     else Blocked (World (K8S.mk cfg (ps ++ [running]) (hs ++ [named]) chs' p' true rv') tr')).
Proof.
  intros Hcc Hcreate. unfold createPod. run_go. rewrite Hcc. run_go.
  rewrite Hcreate. run_go.
  pose proof (range_send_deliver
                (addedEvent (v1.Pod.set_Phase v1.PodRunning pod) (uint64_wrap (rv + 1)))
                chs [] cfg (ps ++ [v1.Pod.set_Phase v1.PodRunning pod])
                (hs ++ [taskHandle.set_Name (v1.ObjectMeta.Name (v1.Pod.Meta pod)) handle])
                p' true (uint64_wrap (rv + 1))
                ((tr ++ [CallCreateTask (podTask pod cc)]) ++
                 [Slog "INFO" "task created"
                    [("name", taskHandle.Name handle); ("id", taskHandle.Id handle)]]))
    as Hsend.
  simpl in Hsend. unfold K8S_set.pods, K8S_set.handles; simpl.
  rewrite Hsend. destruct (deliver _ chs) as [chs' ok]; simpl.
  rewrite <- app_assoc; simpl. by destruct ok.
Qed.

End CreatePodFacts.

(* ================================================================== *)
(** ** The pod-to-task conversion *)
(* ================================================================== *)


Lemma env_last_snoc name env kv :
  env_last name (env ++ [kv])
  = if decide (v1.EnvVar.Name kv = name) then Some (v1.EnvVar.Value kv)
    else env_last name env.
Proof.
  unfold env_last. rewrite filter_app, filter_cons, filter_nil.
  destruct (decide (v1.EnvVar.Name kv = name)).
  - by rewrite last_snoc.
  - by rewrite app_nil_r.
Qed.

Lemma podTask_fields pod cc :
  Task.Name (podTask pod cc) = v1.ObjectMeta.Name (v1.Pod.Meta pod)
  ∧ Task.Image (podTask pod cc) = v1.Container.Image cc
  ∧ Task.Args (podTask pod cc) = v1.Container.Args cc.
Proof.
  unfold podTask. induction (v1.Container.Env cc) as [|kv env IH] using rev_ind.
  - done.
  - rewrite foldl_app; simpl. by destruct (decide _); simpl.
Qed.

Lemma podTask_Env pod cc name :
  Task.Env (podTask pod cc) !! name
  = task_value name <$> env_last name (v1.Container.Env cc).
Proof.
  unfold podTask. induction (v1.Container.Env cc) as [|kv env IH] using rev_ind.
  - simpl. by rewrite lookup_empty.
  - rewrite foldl_app, env_last_snoc; simpl.
    destruct (decide (v1.EnvVar.Name kv = "SPARK_LOCAL_DIRS")) as [Hs|Hs]; simpl.
    + destruct (decide (v1.EnvVar.Name kv = name)) as [<-|Hn].
      * rewrite lookup_insert_eq; simpl. unfold task_value. by rewrite decide_True.
      * by rewrite lookup_insert_ne.
    + destruct (decide (v1.EnvVar.Name kv = name)) as [<-|Hn].
      * rewrite lookup_insert_eq; simpl. unfold task_value. by rewrite decide_False.
      * by rewrite lookup_insert_ne.
Qed.


(* ================================================================== *)
(** ** Descriptor validation *)
(* ================================================================== *)

(** C1, as the code has it.  A pod whose container list does not hold exactly
    one container makes [createPod] panic with "only one container per pod
    is supported": no error value is returned.  The counter has been
    incremented, the deferred unlock has run, and the trace is unchanged, so
    the provider was not called.  The goroutine [postPods] started does not
    recover, so the panic is the end of the process. *)
Theorem createPod_rejects_by_panic {P} `{!provider P} (pod : v1.Pod.t) (s : world P) :
  K8S.createLock (k8s s) = false →
  length (v1.PodSpec.Containers (v1.Pod.Spec pod)) ≠ 1 →
  let s' := World (K8S_set.resourceVersion
                     (uint64_wrap (K8S.resourceVersion (k8s s) + 1)) (k8s s))
                  (trace s) in
  createPod pod s = Panic "only one container per pod is supported" s'
  ∧ postPods_func1 pod s = Panic "only one container per pod is supported" s'.
Proof.
  destruct s as [[cfg ps hs chs p lock rv] tr]; simpl. intros -> Hlen.
  assert (createPod pod (World (K8S.mk cfg ps hs chs p false rv) tr)
          = Panic "only one container per pod is supported"
              (World (K8S.mk cfg ps hs chs p false (uint64_wrap (rv + 1))) tr)) as E
    by (by apply createPod_panic).
  split; [exact E|]. unfold postPods_func1, bind. by rewrite E.
Qed.

Lemma createPod_rejects_by_panic_witness :
  createPod Examples.two_containers
    (Examples.shim (Examples.docker_only "") [chan.make 1000] [Examples.started "c-1"])
  = Panic "only one container per pod is supported"
      (World (K8S.mk (Examples.docker_only "") [] [] [chan.make 1000]
                (scripted.mk [Examples.started "c-1"]) false 1) []).
Proof.
  refine (proj1 (createPod_rejects_by_panic Examples.two_containers
                   (Examples.shim (Examples.docker_only "") [chan.make 1000]
                      [Examples.started "c-1"]) _ _)).
  - reflexivity.
  - simpl. lia.
Defined.

(** C1 as stated fails: a pod without containers gets no error value back,
    [createPod] panics. *)
Lemma createPod_no_container_panics :
  let s := Examples.shim (Examples.docker_only "") [] [Examples.started "c-1"] in
  createPod Examples.no_container s
  = Panic "only one container per pod is supported"
      (World (K8S.mk (Examples.docker_only "") [] [] []
                (scripted.mk [Examples.started "c-1"]) false 1) [])
  ∧ ¬ ∃ err s', createPod Examples.no_container s = Ret (Some err) s'.
Proof.
  split; [reflexivity|]. intros (err & s' & H). discriminate H.
Qed.

(* ================================================================== *)
(** ** Provider failures on the asynchronous path *)
(* ================================================================== *)

(** C6.  When the provider's CreateTask fails for a submitted pod, the
    goroutine of [postPods] only logs the error: the pod list, the handle
    list and every subscriber channel are as before, and the trace gains the
    provider call and the log record, nothing else. *)
Theorem postPods_provider_failure {P} `{!provider P}
    (pod : v1.Pod.t) (cc : v1.Container.t) (s : world P) (p' : P) (err : error) :
  K8S.createLock (k8s s) = false →
  v1.PodSpec.Containers (v1.Pod.Spec pod) = [cc] →
  CreateTask (K8S.provider_ (k8s s)) (podTask pod cc) = Some (p', inr err) →
  ∃ s', postPods_func1 pod s = Ret tt s'
        ∧ K8S.pods (k8s s') = K8S.pods (k8s s)
        ∧ K8S.handles (k8s s') = K8S.handles (k8s s)
        ∧ K8S.updateCh (k8s s') = K8S.updateCh (k8s s)
        ∧ K8S.createLock (k8s s') = false
        ∧ trace s' = trace s ++ [CallCreateTask (podTask pod cc);
                                 Slog "ERROR" "error creating pod" [("err", err)]].
Proof.
  destruct s as [[cfg ps hs chs p lock rv] tr]; simpl. intros -> Hcc Hcreate.
  unfold postPods_func1, bind.
  rewrite (createPod_provider_error pod cc cfg ps hs chs p p' err rv tr Hcc Hcreate).
  run_go. eexists; split; [reflexivity|]. simpl.
  by rewrite <- app_assoc.
Qed.

Lemma postPods_provider_failure_witness :
  ∃ s', postPods_func1 Examples.exec1
          (Examples.shim (Examples.docker_only "") [chan.make 1000] [Examples.refused])
        = Ret tt s'
        ∧ K8S.pods (k8s s') = []
        ∧ K8S.handles (k8s s') = []
        ∧ K8S.updateCh (k8s s') = [chan.make 1000]
        ∧ K8S.createLock (k8s s') = false
        ∧ trace s' = [] ++ [CallCreateTask (podTask Examples.exec1 Examples.executor);
                            Slog "ERROR" "error creating pod" [("err", "launch refused")]].
Proof.
  apply (postPods_provider_failure Examples.exec1 Examples.executor
           (Examples.shim (Examples.docker_only "") [chan.make 1000] [Examples.refused])
           (scripted.mk []) "launch refused"); reflexivity.
Defined.

(* ================================================================== *)
(** ** The task handed to the provider *)
(* ================================================================== *)

(** C8.  For a pod with its one container [cc], the first thing [createPod]
    does outside the process is to call CreateTask with [podTask pod cc].
    That task has the pod's name and the container's image and arguments,
    and its environment maps every name of the container's list to the value
    submitted for it (the last one, should the list repeat a name), except
    that SPARK_LOCAL_DIRS maps to "/tmp" whatever was submitted; names the
    list does not have are absent. *)
Theorem createPod_task_env {P} `{!provider P}
    (pod : v1.Pod.t) (cc : v1.Container.t) (s : world P) :
  K8S.createLock (k8s s) = false →
  v1.PodSpec.Containers (v1.Pod.Spec pod) = [cc] →
  let task := podTask pod cc in
  (∃ rest, trace (final (createPod pod s)) = trace s ++ CallCreateTask task :: rest)
  ∧ Task.Name task = v1.ObjectMeta.Name (v1.Pod.Meta pod)
  ∧ Task.Image task = v1.Container.Image cc
  ∧ Task.Args task = v1.Container.Args cc
  ∧ ∀ name,
      Task.Env task !! name
      = (λ value, if decide (name = "SPARK_LOCAL_DIRS") then "/tmp" else value)
          <$> env_last name (v1.Container.Env cc).
Proof.
  destruct s as [[cfg ps hs chs p lock rv] tr]; simpl. intros -> Hcc.
  split; [|split; [|split; [|split]]]; try apply podTask_fields.
  - destruct (CreateTask p (podTask pod cc)) as [[p' [handle|err]]|] eqn:Hcreate.
    + rewrite (createPod_created pod cc cfg ps hs chs p p' handle rv tr Hcc Hcreate).
      simpl. destruct (deliver _ chs) as [chs' [|]]; simpl; eauto.
    + rewrite (createPod_provider_error pod cc cfg ps hs chs p p' err rv tr Hcc Hcreate).
      simpl. eauto.
    + rewrite (createPod_provider_hang pod cc cfg ps hs chs p rv tr Hcc Hcreate).
      simpl. eauto.
  - intros name. apply podTask_Env.
Qed.

Lemma createPod_task_env_witness :
  Task.Env (podTask Examples.exec1 Examples.executor) !! "SPARK_LOCAL_DIRS" = Some "/tmp"
  ∧ Task.Env (podTask Examples.exec1 Examples.executor) !! "SPARK_EXECUTOR_ID" = Some "2"
  ∧ Task.Env (podTask Examples.exec1 Examples.executor) !! "HOME" = None.
Proof.
  pose proof (createPod_task_env Examples.exec1 Examples.executor
                (Examples.shim (Examples.docker_only "") [] [Examples.started "c-1"])
                eq_refl eq_refl) as (_ & _ & _ & _ & Henv).
  repeat split; rewrite Henv; reflexivity.
Defined.

(* ================================================================== *)
(** ** What a creation that returns has done *)
(* ================================================================== *)

Section CreatePodInversion.
Context {P : Type} `{!provider P}.

(** [createPod] returns in two ways only: the provider failed, or the task
    was created and every subscriber channel had room. *)
Lemma createPod_Ret_inv (pod : v1.Pod.t) (s s' : world P) (err : option error) :
  createPod pod s = Ret err s' →
  ∃ cc p' r,
    K8S.createLock (k8s s) = false
    ∧ v1.PodSpec.Containers (v1.Pod.Spec pod) = [cc]
    ∧ CreateTask (K8S.provider_ (k8s s)) (podTask pod cc) = Some (p', r)
    ∧ let rv' := uint64_wrap (K8S.resourceVersion (k8s s) + 1) in
      let running := v1.Pod.set_Phase v1.PodRunning pod in
      match r with
      | inr e =>
          err = Some e
          ∧ s' = World (K8S.mk (K8S.config (k8s s)) (K8S.pods (k8s s))
                          (K8S.handles (k8s s)) (K8S.updateCh (k8s s)) p' false rv')
                       (trace s ++ [CallCreateTask (podTask pod cc)])
      | inl handle =>
          err = None
          ∧ s' = World (K8S.mk (K8S.config (k8s s)) (K8S.pods (k8s s) ++ [running])
                          (K8S.handles (k8s s) ++
                           [taskHandle.set_Name (v1.ObjectMeta.Name (v1.Pod.Meta pod)) handle])
                          (map (chan.push (addedEvent running rv')) (K8S.updateCh (k8s s)))
                          p' false rv')
                       (trace s ++ [CallCreateTask (podTask pod cc);
                                    Slog "INFO" "task created"
                                      [("name", taskHandle.Name handle);
                                       ("id", taskHandle.Id handle)]])
      end.
Proof.
  destruct s as [[cfg ps hs chs p lock rv] tr]; simpl. intros H.
  destruct lock.
  { rewrite createPod_locked in H by done. discriminate. }
  destruct (v1.PodSpec.Containers (v1.Pod.Spec pod)) as [|cc [|cc' l]] eqn:Hcc.
  - rewrite createPod_panic in H by (rewrite Hcc; simpl; lia). discriminate.
  - destruct (CreateTask p (podTask pod cc)) as [[p' [handle|e]]|] eqn:Hcreate.
    + rewrite (createPod_created pod cc cfg ps hs chs p p' handle rv tr Hcc Hcreate) in H.
      simpl in H. destruct (deliver _ chs) as [chs' [|]] eqn:Hd; [|discriminate].
      apply deliver_ok in Hd. subst chs'. inversion H; subst.
      exists cc, p', (inl handle). by repeat split.
    + rewrite (createPod_provider_error pod cc cfg ps hs chs p p' e rv tr Hcc Hcreate) in H.
      inversion H; subst. exists cc, p', (inr e). by repeat split.
    + rewrite (createPod_provider_hang pod cc cfg ps hs chs p rv tr Hcc Hcreate) in H.
      discriminate.
  - rewrite createPod_panic in H by (rewrite Hcc; simpl; lia). discriminate.
Qed.

End CreatePodInversion.

Lemma uint64_wrap_succ (x y : Z) :
  uint64_wrap x = uint64_wrap y → uint64_wrap (x + 1) = uint64_wrap (y + 1).
Proof.
  unfold uint64_wrap. intros H.
  rewrite (Z.add_mod x 1), (Z.add_mod y 1), H by lia. done.
Qed.

Lemma stamped_wrap (attempts : list v1.Pod.t) :
  ∀ errs x y, uint64_wrap x = uint64_wrap y →
              stamped x attempts errs = stamped y attempts errs.
Proof.
  induction attempts as [|pod attempts IH]; intros errs x y Hxy; simpl; [done|].
  destruct errs as [|[e|] errs]; [done| |].
  - apply IH. by apply uint64_wrap_succ.
  - f_equal; [by rewrite (uint64_wrap_succ x y)|]. apply IH. by apply uint64_wrap_succ.
Qed.

Lemma uint64_wrap_idemp (x : Z) : uint64_wrap (uint64_wrap x) = uint64_wrap x.
Proof. unfold uint64_wrap. by rewrite Z.mod_mod by lia. Qed.

Lemma extended_nil (chs : list chan.t) : map (extended []) chs = chs.
Proof.
  apply map_id_ext. intros [n b]. unfold extended; simpl. by rewrite app_nil_r.
Qed.

Lemma extended_push (event : Event.t) (events : list Event.t) (chs : list chan.t) :
  map (extended events) (map (chan.push event) chs)
  = map (extended (event :: events)) chs.
Proof.
  rewrite map_map. apply map_ext. intros [n b]. unfold extended, chan.push; simpl.
  by rewrite <- app_assoc.
Qed.

(* ================================================================== *)
(** ** Resource versions *)
(* ================================================================== *)

Lemma stamped_no_failure (attempts : list v1.Pod.t) :
  ∀ (errs : list (option error)) (rv : Z),
    length errs = length attempts →
    Forall (λ err, err = None) errs →
    map (λ event, v1.ObjectMeta.ResourceVersion (v1.Pod.Meta (Event.Object event)))
        (stamped rv attempts errs)
    = map (λ j : nat, Sprintf_d (uint64_wrap (rv + Z.of_nat j))) (seq 1 (length attempts)).
Proof.
  induction attempts as [|pod attempts IH]; intros errs rv Hlen Hok; [done|].
  destruct errs as [|err errs]; [discriminate|].
  apply Forall_cons in Hok as [-> Hok]. injection Hlen as Hlen.
  cbn [stamped length seq map]. rewrite addedEvent_eq. cbn [Event.Object].
  rewrite <- (seq_shift (length attempts) 1), map_map.
  rewrite (IH errs (rv + 1)%Z Hlen Hok).
  f_equal. apply map_ext. intros j. do 2 f_equal. lia.
Qed.

(** C2, as the code has it.  In a run of serialised creations that all
    return, the counter moves once per attempt, failed or not: every
    subscriber channel gains, in order, the event of each successful attempt,
    and the event of attempt number [j] (counting failed attempts) carries
    the counter at the start plus [j], wrapped to 64 bits.  A failed attempt
    uses up a version, so an attempt that succeeds after it is announced
    with a gap; when no attempt fails, the [N] events carry the counter at
    the start plus 1, ..., plus [N], which is 1..[N] on a fresh shim.  The
    descriptors appended to [k.pods] are the submitted pods marked running:
    the version goes on the event's copy only. *)
Theorem createPods_versions {P} `{!provider P}
    (attempts : list v1.Pod.t) (errs : list (option error)) (s s' : world P) :
  createPods attempts s = Ret errs s' →
  length errs = length attempts
  ∧ K8S.pods (k8s s') = K8S.pods (k8s s) ++ listed attempts errs
  ∧ K8S.updateCh (k8s s')
    = map (extended (stamped (K8S.resourceVersion (k8s s)) attempts errs))
          (K8S.updateCh (k8s s))
  ∧ (Forall (λ err, err = None) errs →
     map (λ event, v1.ObjectMeta.ResourceVersion (v1.Pod.Meta (Event.Object event)))
         (stamped (K8S.resourceVersion (k8s s)) attempts errs)
     = map (λ j : nat, Sprintf_d (uint64_wrap (K8S.resourceVersion (k8s s) + Z.of_nat j)))
           (seq 1 (length attempts))
     ∧ (K8S.resourceVersion (k8s s) = 0%Z →
        (Z.of_nat (length attempts) < 2 ^ 64)%Z →
        map (λ event, v1.ObjectMeta.ResourceVersion (v1.Pod.Meta (Event.Object event)))
            (stamped (K8S.resourceVersion (k8s s)) attempts errs)
        = map (λ j : nat, Sprintf_d (Z.of_nat j)) (seq 1 (length attempts)))).
Proof.
  intros H.
  enough (length errs = length attempts
          ∧ K8S.pods (k8s s') = K8S.pods (k8s s) ++ listed attempts errs
          ∧ K8S.updateCh (k8s s')
            = map (extended (stamped (K8S.resourceVersion (k8s s)) attempts errs))
                  (K8S.updateCh (k8s s))) as (Hlen & Hpods & Hchs).
  { split; [done|]. split; [done|]. split; [done|].
    intros Hok.
    pose proof (stamped_no_failure attempts errs (K8S.resourceVersion (k8s s)) Hlen Hok)
      as Hall.
    split; [exact Hall|]. intros Hzero Hsmall. rewrite Hall, Hzero.
    apply map_ext_in. intros j Hj. apply in_seq in Hj. f_equal.
    unfold uint64_wrap. apply Z.mod_small. lia. }
  revert errs s s' H. induction attempts as [|pod attempts IH]; intros errs s s' H.
  - inversion H; subst; simpl. by rewrite app_nil_r, extended_nil.
  - simpl in H. unfold bind at 1 in H.
    destruct (createPod pod s) as [err s1| |] eqn:Hpod; try discriminate.
    unfold bind at 1 in H.
    destruct (createPods attempts s1) as [errs1 s2| |] eqn:Hrest; try discriminate.
    inversion H; subst errs s'. clear H.
    destruct (IH _ _ _ Hrest) as (Hlen & Hpods & Hchs).
    apply createPod_Ret_inv in Hpod as (cc & p' & r & _ & _ & _ & Hr).
    simpl in Hr. destruct r as [handle|e]; destruct Hr as [-> ->];
      simpl in *; rewrite Hpods, Hchs.
    + split; [by rewrite Hlen|]. split; [by rewrite <- app_assoc|].
      rewrite extended_push. do 3 f_equal.
      apply stamped_wrap, uint64_wrap_idemp.
    + split; [by rewrite Hlen|]. split; [done|].
      f_equal. f_equal. apply stamped_wrap, uint64_wrap_idemp.
Qed.

Lemma createPods_versions_witness :
  let s := Examples.shim (Examples.docker_only "") [chan.make 1000]
             [Examples.refused; Examples.started "c-2"] in
  ∃ s', createPods [Examples.exec1; Examples.exec2] s = Ret [Some "launch refused"; None] s'
        ∧ K8S.updateCh (k8s s')
          = map (extended (stamped 0 [Examples.exec1; Examples.exec2]
                             [Some "launch refused"; None]))
                [chan.make 1000].
Proof.
  eexists. split; [vm_compute; reflexivity|].
  refine (proj1 (proj2 (proj2 (createPods_versions [Examples.exec1; Examples.exec2]
                                 [Some "launch refused"; None]
                                 (Examples.shim (Examples.docker_only "") [chan.make 1000]
                                    [Examples.refused; Examples.started "c-2"]) _ _)))).
  vm_compute. reflexivity.
Defined.

(** C2 as stated fails: after one failed attempt, the first descriptor that
    is created is announced with version 2, and the copy of it in [k.pods]
    carries the version the client sent (none), not 1. *)
Lemma resource_version_gap_after_failure :
  ∃ s',
    createPods [Examples.exec1; Examples.exec2]
      (Examples.shim (Examples.docker_only "") [chan.make 1000]
         [Examples.refused; Examples.started "c-2"])
    = Ret [Some "launch refused"; None] s'
    ∧ map (λ pod, (v1.ObjectMeta.Name (v1.Pod.Meta pod),
                   v1.ObjectMeta.ResourceVersion (v1.Pod.Meta pod)))
          (K8S.pods (k8s s'))
      = [("spark-pi-exec-2", "")]
    ∧ map (λ c, map (λ ev, v1.ObjectMeta.ResourceVersion (v1.Pod.Meta (Event.Object ev)))
                    (chan.buf c))
          (K8S.updateCh (k8s s'))
      = [["2"]].
Proof.
  eexists. split; [vm_compute; reflexivity|].
  split; vm_compute; reflexivity.
Qed.

(* ================================================================== *)
(** ** The event a watcher is sent *)
(* ================================================================== *)

(** C5, as the code has it.  When [createPod] returns nil, every subscriber
    channel has gained one and the same ADDED event; its object is the
    submitted pod with the status phase set to Running and the resource
    version set to the counter in decimal.  Putting the submitted version
    back gives the submitted pod marked running: the phase is the one other
    field that can differ. *)
Theorem createPod_event_object {P} `{!provider P} (pod : v1.Pod.t) (s s' : world P) :
  createPod pod s = Ret None s' →
  ∃ event,
    K8S.updateCh (k8s s') = map (chan.push event) (K8S.updateCh (k8s s))
    ∧ Event.Type_ event = "ADDED"
    ∧ Event.Object event
      = v1.Pod.set_ResourceVersion (Sprintf_d (K8S.resourceVersion (k8s s')))
          (v1.Pod.set_Phase v1.PodRunning pod)
    ∧ v1.Pod.set_ResourceVersion (v1.ObjectMeta.ResourceVersion (v1.Pod.Meta pod))
        (Event.Object event)
      = v1.Pod.set_Phase v1.PodRunning pod.
Proof.
  intros H. apply createPod_Ret_inv in H as (cc & p' & r & _ & _ & _ & Hr).
  simpl in Hr. destruct r as [handle|e]; destruct Hr as [Herr ->]; [|discriminate].
  eexists. split; [reflexivity|]. rewrite addedEvent_eq; simpl.
  repeat split. by destruct pod as [[] ? ?].
Qed.

Lemma createPod_event_object_witness :
  ∃ event,
    [chan.mk 1000 [addedEvent (v1.Pod.set_Phase v1.PodRunning Examples.exec1) 1]]
    = map (chan.push event) [chan.make 1000]
    ∧ Event.Type_ event = "ADDED"
    ∧ Event.Object event
      = v1.Pod.set_ResourceVersion (Sprintf_d 1)
          (v1.Pod.set_Phase v1.PodRunning Examples.exec1)
    ∧ v1.Pod.set_ResourceVersion "" (Event.Object event)
      = v1.Pod.set_Phase v1.PodRunning Examples.exec1.
Proof.
  refine (createPod_event_object Examples.exec1
            (Examples.shim (Examples.docker_only "") [chan.make 1000] [Examples.started "c-1"])
            (World (K8S.mk (Examples.docker_only "")
                      [v1.Pod.set_Phase v1.PodRunning Examples.exec1]
                      [taskHandle.mk "spark-pi-exec-1" "c-1"]
                      [chan.mk 1000 [addedEvent (v1.Pod.set_Phase v1.PodRunning Examples.exec1) 1]]
                      (scripted.mk []) false 1)
                   [CallCreateTask (podTask Examples.exec1 Examples.executor);
                    Slog "INFO" "task created" [("name", ""); ("id", "c-1")]])
            _).
  vm_compute. reflexivity.
Defined.

(** C5 as stated fails: a pod submitted as Pending is announced as Running,
    so the event's object differs from the submission in more than the
    resource version. *)
Lemma event_object_differs_in_phase :
  ∃ s' event,
    createPod Examples.exec1
      (Examples.shim (Examples.docker_only "") [chan.make 1000] [Examples.started "c-1"])
    = Ret None s'
    ∧ K8S.updateCh (k8s s') = [chan.mk 1000 [event]]
    ∧ v1.PodStatus.Phase (v1.Pod.Status Examples.exec1) = "Pending"
    ∧ v1.PodStatus.Phase (v1.Pod.Status (Event.Object event)) = "Running"
    ∧ v1.Pod.set_ResourceVersion "" (Event.Object event) ≠ Examples.exec1.
Proof.
  eexists _, _. split; [vm_compute; reflexivity|].
  split; [reflexivity|]. split; [reflexivity|]. split; [reflexivity|].
  intros H. apply (f_equal (λ pod, v1.PodStatus.Phase (v1.Pod.Status pod))) in H.
  vm_compute in H. discriminate H.
Qed.

(* ================================================================== *)
(** ** A subscriber whose queue is full *)
(* ================================================================== *)

Lemma full_true (c : chan.t) : chan.cap c ≤ length (chan.buf c) → chan.full c = true.
Proof. intros H. unfold chan.full. by apply bool_decide_eq_true. Qed.

Lemma full_false (c : chan.t) : length (chan.buf c) < chan.cap c → chan.full c = false.
Proof. intros H. unfold chan.full. apply bool_decide_eq_false. lia. Qed.

Lemma getPods_watch_locked {P} (s : world P) :
  K8S.createLock (k8s s) = true → getPods_watch s = Blocked s.
Proof.
  destruct s as [[cfg ps hs chs p lock rv] tr]; simpl; intros ->.
  unfold getPods_watch. by run_go.
Qed.

(** C4, as the code has it.  A watcher's channel is made with capacity 1000
    ([getPods_watch] appends [chan.make 1000]).  When the task has been
    created and the first full channel of [k.updateCh] is [c], [createPod]
    parks on the send to [c] with the create lock held: the channels before
    [c] have the event, [c] and the ones after it are untouched (nothing is
    dropped, nobody is unsubscribed), and from that state every other
    [createPod] and every new watch registration parks on the lock. *)
Theorem createPod_full_queue_blocks {P} `{!provider P}
    (pod : v1.Pod.t) (cc : v1.Container.t) (s : world P) (p' : P)
    (handle : taskHandle.t) (pre post : list chan.t) (c : chan.t) :
  K8S.createLock (k8s s) = false →
  v1.PodSpec.Containers (v1.Pod.Spec pod) = [cc] →
  CreateTask (K8S.provider_ (k8s s)) (podTask pod cc) = Some (p', inl handle) →
  K8S.updateCh (k8s s) = pre ++ c :: post →
  Forall (λ c, length (chan.buf c) < chan.cap c) pre →
  chan.cap c ≤ length (chan.buf c) →
  let event := addedEvent (v1.Pod.set_Phase v1.PodRunning pod)
                 (uint64_wrap (K8S.resourceVersion (k8s s) + 1)) in
  getPods_watch s
  = Ret (length (K8S.updateCh (k8s s)))
        (World (K8S_set.updateCh (K8S.updateCh (k8s s) ++ [chan.make 1000]) (k8s s))
               (trace s))
  ∧ ∃ s', createPod pod s = Blocked s'
          ∧ K8S.createLock (k8s s') = true
          ∧ K8S.updateCh (k8s s') = map (chan.push event) pre ++ c :: post
          ∧ (∀ pod', createPod pod' s' = Blocked s')
          ∧ getPods_watch s' = Blocked s'.
Proof.
  destruct s as [[cfg ps hs chs p lock rv] tr]; simpl.
  intros -> Hcc Hcreate -> Hpre Hc. split.
  { unfold getPods_watch. by run_go. }
  rewrite (createPod_created pod cc cfg ps hs _ p p' handle rv tr Hcc Hcreate); simpl.
  rewrite deliver_first_full.
  - eexists. split; [reflexivity|]. simpl. split; [done|]. split; [done|]. split.
    + intros pod'. by apply createPod_locked.
    + by apply getPods_watch_locked.
  - eapply Forall_impl; [exact Hpre|]. intros x Hx. by apply full_false.
  - by apply full_true.
Qed.

Lemma createPod_full_queue_blocks_witness :
  let slow := chan.mk 2 [addedEvent Examples.exec1 1; addedEvent Examples.exec1 2] in
  let s := World (K8S.mk (Examples.docker_only "") [] [] [chan.make 1000; slow; chan.make 1000]
                    (scripted.mk [Examples.started "c-3"]) false 2) [] in
  ∃ s', createPod Examples.exec2 s = Blocked s'
        ∧ K8S.createLock (k8s s') = true
        ∧ K8S.updateCh (k8s s')
          = map (chan.push (addedEvent (v1.Pod.set_Phase v1.PodRunning Examples.exec2)
                              (uint64_wrap (2 + 1))))
                [chan.make 1000] ++ slow :: [chan.make 1000]
        ∧ (∀ pod', createPod pod' s' = Blocked s')
        ∧ getPods_watch s' = Blocked s'.
Proof.
  refine (proj2 (createPod_full_queue_blocks Examples.exec2 Examples.executor
                   (World (K8S.mk (Examples.docker_only "") [] []
                             [chan.make 1000;
                              chan.mk 2 [addedEvent Examples.exec1 1; addedEvent Examples.exec1 2];
                              chan.make 1000]
                             (scripted.mk [Examples.started "c-3"]) false 2) [])
                   (scripted.mk []) (taskHandle.mk "" "c-3")
                   [chan.make 1000] [chan.make 1000]
                   (chan.mk 2 [addedEvent Examples.exec1 1; addedEvent Examples.exec1 2])
                   _ _ _ _ _ _)).
  - reflexivity.
  - reflexivity.
  - reflexivity.
  - reflexivity.
  - repeat constructor; simpl; lia.
  - simpl; lia.
Defined.

(** C4 as stated fails: with one watcher whose channel holds 1000 events,
    [createPod] neither drops an event nor unsubscribes the watcher; it parks
    inside the critical section, and the next creation parks on the lock. *)
Lemma createPod_parks_on_full_channel :
  let backlog := replicate 1000 (addedEvent Examples.exec1 1) in
  let s := World (K8S.mk (Examples.docker_only "") [] [] [chan.mk 1000 backlog]
                    (scripted.mk [Examples.started "c-2"; Examples.started "c-3"])
                    false 1000) [] in
  ∃ s', createPod Examples.exec2 s = Blocked s'
        ∧ K8S.createLock (k8s s') = true
        ∧ K8S.updateCh (k8s s') = [chan.mk 1000 backlog]
        ∧ createPod Examples.exec1 s' = Blocked s'.
Proof. eexists. repeat split; vm_compute; reflexivity. Qed.

(* ================================================================== *)
(** ** Configuration *)
(* ================================================================== *)

(** C7, as the code has it.  With both providers enabled [New] fails with
    "only one provider can be enabled" before either constructor is called,
    and so before [Run] can start the server.  A missing control-plane
    address is found by [deploy], which [Run] calls after [initServer]: when
    Docker is not enabled and the address is empty, [Run] returns "control
    plane public address is required" with the server goroutine already
    started. *)
Theorem config_errors_and_server_start {E D} `{!provider E} `{!provider D}
    (newEcsProvider : option ECSConfig.t → E + error) (newDockerProvider : D + error)
    (cfg : Config.t) :
  (Config.EcsEnabled cfg = true → Config.DockerEnabled cfg = true →
   New newEcsProvider newDockerProvider cfg
   = (inr "only one provider can be enabled", []))
  ∧ (∀ k tr,
       Config.DockerEnabled cfg = false → Config.ControlPlaneAddr cfg = "" →
       New newEcsProvider newDockerProvider cfg = (inl k, tr) →
       Run (World k tr)
       = Ret (Some "control plane public address is required")
             (World k (tr ++ [GoServerStart "0.0.0.0:1323"]))).
Proof.
  split.
  - intros He Hd. unfold New. by rewrite He, Hd.
  - intros k tr Hd Haddr HNew. unfold New in HNew. rewrite Hd in HNew.
    rewrite andb_false_r in HNew.
    assert (K8S.config k = cfg) as Hcfg.
    { destruct (Config.EcsEnabled cfg); simpl in HNew.
      - destruct (newEcsProvider _); simpl in HNew; inversion HNew; by subst.
      - destruct newDockerProvider; simpl in HNew; inversion HNew; by subst. }
    destruct k as [cfg' ps hs chs p lock rv]; simpl in Hcfg; subst cfg'.
    unfold Run, deploy. run_go. rewrite Hd; simpl. rewrite Haddr; simpl. done.
Qed.

Lemma config_errors_and_server_start_witness :
  New (λ _, inl (scripted.mk [])) (inl (scripted.mk [])) Examples.both_enabled
  = (inr "only one provider can be enabled", [])
  ∧ Run (World (K8S.mk (Examples.ecs_only "") [] [] []
                  (inl (scripted.mk []) : scripted.t + scripted.t) false 0)
               [CallNewEcsProvider (Config.EcsConfig (Examples.ecs_only ""))])
    = Ret (Some "control plane public address is required")
          (World (K8S.mk (Examples.ecs_only "") [] [] [] (inl (scripted.mk [])) false 0)
             ([CallNewEcsProvider (Config.EcsConfig (Examples.ecs_only ""))]
              ++ [GoServerStart "0.0.0.0:1323"])).
Proof.
  split.
  - apply (proj1 (config_errors_and_server_start (λ _, inl (scripted.mk []))
                    (inl (scripted.mk [])) Examples.both_enabled)); reflexivity.
  - apply (proj2 (config_errors_and_server_start (λ _, inl (scripted.mk []))
                    (inl (scripted.mk [])) (Examples.ecs_only ""))); reflexivity.
Defined.

(** C7 as stated fails: with ECS enabled and no control-plane address, [New]
    succeeds and [Run] reports the missing address only after it has started
    the server. *)
Lemma missing_address_found_after_server_start :
  ∃ k tr,
    New (λ _, inl (scripted.mk [])) (inl (scripted.mk [])) (Examples.ecs_only "")
    = (inl k, tr)
    ∧ Run (World k tr)
      = Ret (Some "control plane public address is required")
            (World k [CallNewEcsProvider (Config.EcsConfig (Examples.ecs_only ""));
                      GoServerStart "0.0.0.0:1323"]).
Proof. eexists _, _. split; reflexivity. Qed.

(** C9.  With neither flag set [New] raises no configuration error: it calls
    the Docker constructor, not the ECS one, and returns a shim over the
    Docker provider, or that constructor's own error. *)
Theorem New_defaults_to_docker {E D}
    (newEcsProvider : option ECSConfig.t → E + error) (newDockerProvider : D + error)
    (cfg : Config.t) :
  Config.EcsEnabled cfg = false →
  Config.DockerEnabled cfg = false →
  New newEcsProvider newDockerProvider cfg
  = match newDockerProvider with
    | inl docker => (inl (K8S.mk cfg [] [] [] (inr docker) false 0), [CallNewDockerProvider])
    | inr err => (inr err, [CallNewDockerProvider])
    end.
Proof.
  intros He Hd. unfold New. rewrite He, Hd; simpl. by destruct newDockerProvider.
Qed.

Lemma New_defaults_to_docker_witness :
  New (λ _, inr "no credentials" : scripted.t + error)
      (inl (scripted.mk [Examples.started "c-0"])) Examples.no_flag
  = (inl (K8S.mk Examples.no_flag [] [] []
            (inr (scripted.mk [Examples.started "c-0"])) false 0),
     [CallNewDockerProvider]).
Proof.
  apply (New_defaults_to_docker (λ _, inr "no credentials" : scripted.t + error)
           (inl (scripted.mk [Examples.started "c-0"])) Examples.no_flag); reflexivity.
Defined.

(** C10.  With Docker enabled [deploy] behaves as if the configured address
    were "host.docker.internal", whatever it was: the address is overwritten
    and stays so, the check for an empty address is passed, and the next
    things [deploy] does are to log that address and to call CreateTask with
    the driver task built from it. *)
Theorem deploy_docker_overrides_addr {P} `{!provider P} (s : world P) :
  Config.DockerEnabled (K8S.config (k8s s)) = true →
  let cfg := Config.set_ControlPlaneAddr "host.docker.internal" (K8S.config (k8s s)) in
  deploy s = deploy (World (K8S_set.config cfg (k8s s)) (trace s))
  ∧ K8S.config (k8s (final (deploy s))) = cfg
  ∧ ∃ rest,
      trace (final (deploy s))
      = trace s
        ++ Slog "INFO" "Using control plane address"
             [("control-plane-addr", "host.docker.internal")]
        :: CallCreateTask (driverTask "host.docker.internal" (Config.Instances cfg))
        :: rest.
Proof.
  destruct s as [[[addr e d ec n] ps hs chs p lock rv] tr]; simpl. intros ->.
  unfold deploy, Config.set_ControlPlaneAddr. run_go.
  split; [done|].
  destruct (CreateTask p (driverTask "host.docker.internal" n))
    as [[p' [handle|err]]|]; simpl.
  - destruct (WaitForTask p' (taskHandle.set_Name "spark-pi" handle))
      as [[p'' r]|]; simpl.
    + split; [done|]. rewrite <- !app_assoc; simpl. eauto.
    + split; [done|]. rewrite <- !app_assoc; simpl. eauto.
  - split; [done|]. rewrite <- !app_assoc; simpl. eauto.
  - split; [done|]. rewrite <- !app_assoc; simpl. eauto.
Qed.

Lemma deploy_docker_overrides_addr_witness :
  let s := Examples.shim (Examples.docker_only "203.0.113.9") [] [Examples.refused] in
  deploy s = deploy (Examples.shim (Examples.docker_only "host.docker.internal") []
                       [Examples.refused])
  ∧ Config.ControlPlaneAddr (K8S.config (k8s (final (deploy s)))) = "host.docker.internal".
Proof.
  pose proof (deploy_docker_overrides_addr
                (Examples.shim (Examples.docker_only "203.0.113.9") [] [Examples.refused])
                eq_refl) as (H1 & H2 & _).
  split; [exact H1|]. exact (f_equal Config.ControlPlaneAddr H2).
Defined.

(* ================================================================== *)
(** ** The ECS polling loops *)
(* ================================================================== *)

Lemma unmarshal_eq (statuses : list (option string)) :
  ∀ h n t,
    ecs.unmarshal statuses (ecs.World h n t)
    = Ret (tasks_at (length h) statuses) (ecs.World (h ++ omap id statuses) n t).
Proof.
  induction statuses as [|[st|] rest IH]; intros h n t; simpl.
  - by rewrite app_nil_r.
  - unfold bind, ecs.aws_String; simpl. rewrite IH.
    rewrite length_app; simpl. rewrite Nat.add_1_r, <- app_assoc. done.
  - unfold bind. rewrite IH. done.
Qed.

Lemma tasks_at_head (base : nat) (statuses : list (option string)) t0 ts :
  tasks_at base statuses = t0 :: ts →
  ecs.SdkTask.LastStatus t0 = None
  ∨ ecs.SdkTask.LastStatus t0 = Some base ∧ 0 < length (omap id statuses).
Proof.
  destruct statuses as [|[st|] rest]; simpl; intros H; inversion H; subst; simpl.
  - right. split; [done|lia].
  - by left.
Qed.

Lemma bind_Ret {S A B} (m : M S A) (f : A → M S B) (s s' : S) (a : A) :
  m s = Ret a s' → bind m f s = f a s'.
Proof. intros H. unfold bind. by rewrite H. Qed.

Lemma aws_String_run (v : string) h n t :
  ecs.aws_String v (ecs.World h n t) = Ret (Some (length h)) (ecs.World (h ++ [v]) n t).
Proof. done. Qed.

Lemma deref_run (a : nat) (v : string) h n t :
  h !! a = Some v → ecs.deref (Some a) (ecs.World h n t) = Ret v (ecs.World h n t).
Proof. intros H. unfold ecs.deref; simpl. by rewrite H. Qed.

Lemma DescribeTasks_run (svc : ecs.ECS) (a b : nat) (cluster task : string) h n t :
  h !! a = Some cluster → h !! b = Some task →
  ecs.DescribeTasks svc (ecs.DescribeTasksInput.mk (Some a) [Some b]) (ecs.World h n t)
  = match ecs.DescribeTasks_reply svc cluster task n with
    | inr err => Ret (inr err) (ecs.World h (S n) t)
    | inl statuses =>
        Ret (inl (tasks_at (length h) statuses)) (ecs.World (h ++ omap id statuses) (S n) t)
    end.
Proof.
  intros Ha Hb. unfold ecs.DescribeTasks; simpl.
  rewrite (bind_Ret _ _ _ _ _ (deref_run a cluster h n t Ha)).
  rewrite (bind_Ret _ _ _ _ _ (deref_run b task h n t Hb)).
  unfold bind at 1. unfold gets; simpl. unfold bind at 1. unfold modify; simpl.
  destruct (ecs.DescribeTasks_reply svc cluster task n) as [statuses|err]; [|done].
  unfold bind. by rewrite unmarshal_eq.
Qed.

(** The store once the two arguments of a DescribeTasks call are allocated. *)
Lemma poll_args_lookup (h : list string) (cluster task : string) :
  (h ++ [cluster; task]) !! length h = Some cluster
  ∧ (h ++ [cluster; task]) !! S (length h) = Some task.
Proof.
  split.
  - by rewrite list_lookup_middle.
  - rewrite (lookup_app_r h) by lia. by replace (S (length h) - length h) with 1 by lia.
Qed.

(** One poll of [WaitForTask]'s loop. *)
Lemma WaitForTask_step (fuel : nat) (e : ecs.ecsProvider) (handle : taskHandle.t) h n t :
  ecs.WaitForTask (S fuel) e handle (ecs.World h n t)
  = (let h1 := h ++ [ECSConfig.ClusterName (ecs.config e); taskHandle.Id handle] in
     match ecs.DescribeTasks_reply (ecs.svc e) (ECSConfig.ClusterName (ecs.config e))
             (taskHandle.Id handle) n with
     | inr err => Ret (Some err) (ecs.World h1 (S n) t)
     | inl [] => Panic "runtime error: index out of range [0] with length 0" (ecs.World h1 (S n) t)
     | inl statuses =>
         ecs.WaitForTask fuel e handle
           (ecs.World (h1 ++ omap id statuses ++ ["STOPPED"]) (S n) (t + 1))
     end).
Proof.
  cbn [ecs.WaitForTask].
  rewrite (bind_Ret _ _ _ _ _ (aws_String_run _ h n t)).
  rewrite (bind_Ret _ _ _ _ _ (aws_String_run _ _ n t)).
  rewrite length_app, Nat.add_1_r, <- app_assoc. cbn [app length].
  destruct (poll_args_lookup h (ECSConfig.ClusterName (ecs.config e)) (taskHandle.Id handle))
    as [Ha Hb].
  unfold bind at 1. rewrite (DescribeTasks_run _ _ _ _ _ _ n t Ha Hb).
  destruct (ecs.DescribeTasks_reply _ _ _ n) as [statuses|err]; [|done].
  destruct (tasks_at _ statuses) as [|t0 ts] eqn:Hts.
  { destruct statuses as [|[st|] rest]; simpl in Hts; try discriminate.
    unfold bind, ecs.index0, panic; simpl. by rewrite app_nil_r. }
  assert (ecs.ptr_eqb (ecs.SdkTask.LastStatus t0)
            (Some (length ((h ++ [ECSConfig.ClusterName (ecs.config e); taskHandle.Id handle])
                           ++ omap id statuses))) = false) as Hneq.
  { unfold ecs.ptr_eqb. apply bool_decide_eq_false.
    apply tasks_at_head in Hts as [->| [-> Hlen]]; [done|].
    intros [=Hl]. rewrite !length_app in Hl. simpl in Hl. lia. }
  unfold ecs.index0, ret. unfold bind at 1.
  rewrite (bind_Ret _ _ _ _ _ (aws_String_run _ _ (S n) t)).
  rewrite Hneq. unfold bind, ecs.time_Sleep, modify. cbn [ecs.heap ecs.polls ecs.slept].
  rewrite <- !app_assoc.
  destruct statuses; [discriminate Hts|]. done.
Qed.

Lemma WaitForTask_not_nil (fuel : nat) (e : ecs.ecsProvider) (handle : taskHandle.t) :
  ∀ h n t w', ecs.WaitForTask fuel e handle (ecs.World h n t) ≠ Ret None w'.
Proof.
  induction fuel as [|fuel IH]; intros h n t w'.
  - discriminate.
  - rewrite WaitForTask_step; simpl.
    destruct (ecs.DescribeTasks_reply _ _ _ n) as [[|st rest]|err]; try discriminate.
    apply IH.
Qed.

Lemma WaitForTask_stopped_service (fuel : nat) (handle : taskHandle.t) :
  ∀ h n t, ∃ h',
    ecs.WaitForTask fuel (ecs.a_provider ecs.stopped_service) handle (ecs.World h n t)
    = Blocked (ecs.World h' (n + fuel) (t + fuel)).
Proof.
  induction fuel as [|fuel IH]; intros h n t.
  - exists h. by rewrite !Nat.add_0_r.
  - rewrite WaitForTask_step; simpl.
    destruct (IH ((h ++ ["sparkanywhere-cluster"; taskHandle.Id handle])
                  ++ ["STOPPED"; "STOPPED"]) (S n) (t + 1)) as [h' Hh'].
    exists h'. rewrite Hh'. f_equal. f_equal; lia.
Qed.

(** The loop of [CreateTask] reads the status through the pointer, and ends
    on the first poll that reports "RUNNING". *)
Lemma CreateTask_poll_sees_RUNNING (fuel : nat) (e : ecs.ecsProvider)
    (handle : taskHandle.t) (rest : list (option string)) h n t :
  ecs.DescribeTasks_reply (ecs.svc e) (ECSConfig.ClusterName (ecs.config e))
    (taskHandle.Id handle) n = inl (Some "RUNNING" :: rest) →
  ecs.CreateTask_poll (S fuel) e handle (ecs.World h n t)
  = Ret (inl handle)
        (ecs.World (h ++ [ECSConfig.ClusterName (ecs.config e); taskHandle.Id handle]
                      ++ "RUNNING" :: omap id rest) (S n) t).
Proof.
  intros Hreply. cbn [ecs.CreateTask_poll].
  rewrite (bind_Ret _ _ _ _ _ (aws_String_run _ h n t)).
  rewrite (bind_Ret _ _ _ _ _ (aws_String_run _ _ n t)).
  rewrite length_app, Nat.add_1_r, <- app_assoc. cbn [app length].
  destruct (poll_args_lookup h (ECSConfig.ClusterName (ecs.config e)) (taskHandle.Id handle))
    as [Ha Hb].
  unfold bind at 1. rewrite (DescribeTasks_run _ _ _ _ _ _ n t Ha Hb), Hreply.
  cbn [tasks_at omap id]. unfold ecs.index0, ret. unfold bind at 1.
  erewrite bind_Ret; [|apply deref_run; by apply list_lookup_middle].
  cbn [ecs.SdkTask.LastStatus]. rewrite decide_True by done.
  by rewrite <- app_assoc.
Qed.

(** C3, on the code.  [WaitForTask] compares the pointer in the service's
    answer with the pointer [aws.String("STOPPED")] has just allocated, so
    the comparison never holds: whatever the service answers, the call does
    not return nil, and on a service whose every poll reports "STOPPED" it is
    still polling after any number of polls, having slept one second after
    each. *)
Theorem WaitForTask_misses_STOPPED (fuel : nat) (e : ecs.ecsProvider)
    (handle : taskHandle.t) (w : ecs.world) :
  (∀ w', ecs.WaitForTask fuel e handle w ≠ Ret None w')
  ∧ ∃ w', ecs.WaitForTask fuel (ecs.a_provider ecs.stopped_service) handle w = Blocked w'
          ∧ ecs.polls w' = ecs.polls w + fuel
          ∧ ecs.slept w' = ecs.slept w + fuel.
Proof.
  destruct w as [h n t]. split.
  - apply WaitForTask_not_nil.
  - destruct (WaitForTask_stopped_service fuel handle h n t) as [h' Hh'].
    eexists. split; [exact Hh'|]. done.
Qed.

(* ================================================================== *)
(** ** More on the ECS provider *)
(* ================================================================== *)

(** One poll of the loop that ends [ecs.CreateTask]. *)
Lemma CreateTask_poll_step (fuel : nat) (e : ecs.ecsProvider) (handle : taskHandle.t) h n t :
  ecs.CreateTask_poll (S fuel) e handle (ecs.World h n t)
  = (let h1 := h ++ [ECSConfig.ClusterName (ecs.config e); taskHandle.Id handle] in
     match ecs.DescribeTasks_reply (ecs.svc e) (ECSConfig.ClusterName (ecs.config e))
             (taskHandle.Id handle) n with
     | inr err => Ret (inr err) (ecs.World h1 (S n) t)
     | inl [] => Panic "runtime error: index out of range [0] with length 0" (ecs.World h1 (S n) t)
     | inl (None :: rest) =>
         Panic "runtime error: invalid memory address or nil pointer dereference"
           (ecs.World (h1 ++ omap id rest) (S n) t)
     | inl (Some st :: rest) =>
         if decide (st = "RUNNING")
         then Ret (inl handle) (ecs.World (h1 ++ st :: omap id rest) (S n) t)
         else ecs.CreateTask_poll fuel e handle
                (ecs.World (h1 ++ st :: omap id rest) (S n) (t + 5))
     end).
Proof.
  cbn [ecs.CreateTask_poll].
  rewrite (bind_Ret _ _ _ _ _ (aws_String_run _ h n t)).
  rewrite (bind_Ret _ _ _ _ _ (aws_String_run _ _ n t)).
  rewrite length_app, Nat.add_1_r, <- app_assoc. cbn [app length].
  destruct (poll_args_lookup h (ECSConfig.ClusterName (ecs.config e)) (taskHandle.Id handle))
    as [Ha Hb].
  unfold bind at 1. rewrite (DescribeTasks_run _ _ _ _ _ _ n t Ha Hb).
  destruct (ecs.DescribeTasks_reply _ _ _ n) as [[|[st|] rest]|err]; [| | |done].
  - unfold bind, ecs.index0, panic; simpl. by rewrite app_nil_r.
  - cbn [tasks_at omap id]. unfold ecs.index0, ret. unfold bind at 1.
    erewrite bind_Ret; [|apply deref_run; by apply list_lookup_middle].
    cbn [ecs.SdkTask.LastStatus]. destruct (decide (st = "RUNNING")); [done|].
    unfold bind, ecs.time_Sleep, modify. done.
  - cbn [tasks_at]. unfold ecs.index0, ret. unfold bind at 1.
    unfold bind, ecs.deref; simpl. done.
Qed.

Lemma CreateTask_unfold (fuel : nat) (e : ecs.ecsProvider) (task : Task.t) (w : ecs.world) :
  ecs.CreateTask fuel e task w
  = match ecs.RunTask_reply (ecs.svc e) (run_task_input e task) with
    | inr err => Ret (inr err) w
    | inl [] => Panic "runtime error: index out of range [0] with length 0" w
    | inl (arn :: _) => ecs.CreateTask_poll fuel e (taskHandle.mk "" arn) w
    end.
Proof.
  unfold ecs.CreateTask, run_task_input.
  destruct (ecs.RunTask_reply _ _) as [[|arn arns]|err]; done.
Qed.

Lemma CreateTask_poll_waits (k : nat) (e : ecs.ecsProvider) (handle : taskHandle.t) :
  ∀ fuel h n t,
    k < fuel →
    (∀ i, i < k → ∃ st rest,
        ecs.DescribeTasks_reply (ecs.svc e) (ECSConfig.ClusterName (ecs.config e))
          (taskHandle.Id handle) (n + i) = inl (Some st :: rest) ∧ st ≠ "RUNNING") →
    (∃ rest,
        ecs.DescribeTasks_reply (ecs.svc e) (ECSConfig.ClusterName (ecs.config e))
          (taskHandle.Id handle) (n + k) = inl (Some "RUNNING" :: rest)) →
    ∃ h', ecs.CreateTask_poll fuel e handle (ecs.World h n t)
          = Ret (inl handle) (ecs.World h' (n + k + 1) (t + 5 * k)).
Proof.
  induction k as [|k IH]; intros fuel h n t Hfuel Hbefore [rest Hrun].
  - destruct fuel as [|fuel]; [lia|]. rewrite CreateTask_poll_step; simpl.
    rewrite Nat.add_0_r in Hrun. rewrite Hrun. rewrite decide_True by done.
    eexists. f_equal. f_equal; lia.
  - destruct fuel as [|fuel]; [lia|]. rewrite CreateTask_poll_step; simpl.
    destruct (Hbefore 0 ltac:(lia)) as (st & rest0 & H0 & Hst).
    rewrite Nat.add_0_r in H0. rewrite H0. rewrite decide_False by done.
    destruct (IH fuel ((h ++ [ECSConfig.ClusterName (ecs.config e); taskHandle.Id handle])
                       ++ st :: omap id rest0) (S n) (t + 5)) as [h' Hh'].
    + lia.
    + intros i Hi. destruct (Hbefore (S i) ltac:(lia)) as (st' & rest' & H' & Hst').
      exists st', rest'. split; [|done]. by replace (S n + i) with (n + S i) by lia.
    + exists rest. by replace (S n + k) with (n + S k) by lia.
    + exists h'. rewrite Hh'. f_equal. f_equal; lia.
Qed.

(** X1.  [ecs.CreateTask] launches the task and waits: when RunTask starts a
    task and the polls report a status other than "RUNNING" [k] times and
    then "RUNNING", the call returns the handle keyed by the first task's
    ARN, with no name, after [k + 1] polls and [5 * k] seconds of sleep. *)
Theorem ecs_CreateTask_returns_when_running (k fuel : nat) (e : ecs.ecsProvider)
    (task : Task.t) (arn : string) (arns : list string) (w : ecs.world) :
  k < fuel →
  ecs.RunTask_reply (ecs.svc e) (run_task_input e task) = inl (arn :: arns) →
  (∀ i, i < k → ∃ st rest,
      ecs.DescribeTasks_reply (ecs.svc e) (ECSConfig.ClusterName (ecs.config e)) arn
        (ecs.polls w + i) = inl (Some st :: rest) ∧ st ≠ "RUNNING") →
  (∃ rest,
      ecs.DescribeTasks_reply (ecs.svc e) (ECSConfig.ClusterName (ecs.config e)) arn
        (ecs.polls w + k) = inl (Some "RUNNING" :: rest)) →
  ∃ w', ecs.CreateTask fuel e task w = Ret (inl (taskHandle.mk "" arn)) w'
        ∧ ecs.polls w' = ecs.polls w + k + 1
        ∧ ecs.slept w' = ecs.slept w + 5 * k.
Proof.
  intros Hfuel Hrun Hbefore Hthen. destruct w as [h n t].
  rewrite CreateTask_unfold, Hrun.
  destruct (CreateTask_poll_waits k e (taskHandle.mk "" arn) fuel h n t Hfuel Hbefore Hthen)
    as [h' Hh'].
  eexists. split; [exact Hh'|]. done.
Qed.

Lemma ecs_CreateTask_returns_when_running_witness :
  ∃ w', ecs.CreateTask 5 (ecs.a_provider (ecs.running_from 2))
          (Task.mk "spark-pi" "apache/spark" ["/bin/bash"] ∅) ecs.w0
        = Ret (inl (taskHandle.mk "" "arn:task/1")) w'
        ∧ ecs.polls w' = 0 + 2 + 1
        ∧ ecs.slept w' = 0 + 5 * 2.
Proof.
  apply (ecs_CreateTask_returns_when_running 2 5 (ecs.a_provider (ecs.running_from 2))
           (Task.mk "spark-pi" "apache/spark" ["/bin/bash"] ∅) "arn:task/1" [] ecs.w0).
  - lia.
  - reflexivity.
  - intros i Hi. exists "PENDING", []. split; [|discriminate].
    destruct i as [|[|i]]; [reflexivity|reflexivity|lia].
  - exists []. reflexivity.
Defined.

Lemma WaitForTask_waits (k : nat) (e : ecs.ecsProvider) (handle : taskHandle.t) (err : error) :
  ∀ fuel h n t,
    k < fuel →
    (∀ i, i < k → ∃ st rest,
        ecs.DescribeTasks_reply (ecs.svc e) (ECSConfig.ClusterName (ecs.config e))
          (taskHandle.Id handle) (n + i) = inl (st :: rest)) →
    ecs.DescribeTasks_reply (ecs.svc e) (ECSConfig.ClusterName (ecs.config e))
      (taskHandle.Id handle) (n + k) = inr err →
    ∃ h', ecs.WaitForTask fuel e handle (ecs.World h n t)
          = Ret (Some err) (ecs.World h' (n + k + 1) (t + k)).
Proof.
  induction k as [|k IH]; intros fuel h n t Hfuel Hbefore Herr.
  - destruct fuel as [|fuel]; [lia|]. rewrite WaitForTask_step; simpl.
    rewrite Nat.add_0_r in Herr. rewrite Herr.
    eexists. f_equal. f_equal; lia.
  - destruct fuel as [|fuel]; [lia|]. rewrite WaitForTask_step; simpl.
    destruct (Hbefore 0 ltac:(lia)) as (st & rest0 & H0).
    rewrite Nat.add_0_r in H0. rewrite H0.
    destruct (IH fuel ((h ++ [ECSConfig.ClusterName (ecs.config e); taskHandle.Id handle])
                       ++ omap id (st :: rest0) ++ ["STOPPED"]) (S n) (t + 1)) as [h' Hh'].
    + lia.
    + intros i Hi. destruct (Hbefore (S i) ltac:(lia)) as (st' & rest' & H').
      exists st', rest'. by replace (S n + i) with (n + S i) by lia.
    + by replace (S n + k) with (n + S k) by lia.
    + exists h'. rewrite Hh'. f_equal. f_equal; lia.
Qed.

(** X2.  [ecs.WaitForTask] ends on the first poll that fails: when [k]
    polls are answered with some task and the next one with an error, the
    call returns that error after [k + 1] polls and [k] seconds of sleep. *)
Theorem ecs_WaitForTask_returns_first_error (k fuel : nat) (e : ecs.ecsProvider)
    (handle : taskHandle.t) (err : error) (w : ecs.world) :
  k < fuel →
  (∀ i, i < k → ∃ st rest,
      ecs.DescribeTasks_reply (ecs.svc e) (ECSConfig.ClusterName (ecs.config e))
        (taskHandle.Id handle) (ecs.polls w + i) = inl (st :: rest)) →
  ecs.DescribeTasks_reply (ecs.svc e) (ECSConfig.ClusterName (ecs.config e))
    (taskHandle.Id handle) (ecs.polls w + k) = inr err →
  ∃ w', ecs.WaitForTask fuel e handle w = Ret (Some err) w'
        ∧ ecs.polls w' = ecs.polls w + k + 1
        ∧ ecs.slept w' = ecs.slept w + k.
Proof.
  intros Hfuel Hbefore Herr. destruct w as [h n t].
  destruct (WaitForTask_waits k e handle err fuel h n t Hfuel Hbefore Herr) as [h' Hh'].
  eexists. split; [exact Hh'|]. done.
Qed.

Lemma ecs_WaitForTask_returns_first_error_witness :
  ∃ w', ecs.WaitForTask 4 (ecs.a_provider (Inputs.failing_from 3))
          (taskHandle.mk "spark-pi" "arn:task/1") ecs.w0
        = Ret (Some "ThrottlingException") w'
        ∧ ecs.polls w' = 0 + 3 + 1
        ∧ ecs.slept w' = 0 + 3.
Proof.
  apply (ecs_WaitForTask_returns_first_error 3 4 (ecs.a_provider (Inputs.failing_from 3))
           (taskHandle.mk "spark-pi" "arn:task/1") "ThrottlingException" ecs.w0).
  - lia.
  - intros i Hi. exists (Some "RUNNING"), [].
    destruct i as [|[|[|i]]]; [reflexivity|reflexivity|reflexivity|lia].
  - reflexivity.
Defined.

(** X3.  An answer the loops cannot index or dereference is a panic, not an
    error: when the poll lists no task, [ecs.WaitForTask] and the loop of
    [ecs.CreateTask] both panic on [Tasks[0]]; when the first task has no
    status, the loop of [ecs.CreateTask] panics on the nil pointer. *)
Theorem ecs_polls_panic_on_malformed_answer (fuel : nat) (e : ecs.ecsProvider)
    (handle : taskHandle.t) (w : ecs.world) (statuses : list (option string)) :
  ecs.DescribeTasks_reply (ecs.svc e) (ECSConfig.ClusterName (ecs.config e))
    (taskHandle.Id handle) (ecs.polls w) = inl statuses →
  (statuses = [] →
   ∃ w', ecs.WaitForTask (S fuel) e handle w
         = Panic "runtime error: index out of range [0] with length 0" w'
         ∧ ecs.CreateTask_poll (S fuel) e handle w
           = Panic "runtime error: index out of range [0] with length 0" w')
  ∧ (head statuses = Some None →
     ∃ w', ecs.CreateTask_poll (S fuel) e handle w
           = Panic "runtime error: invalid memory address or nil pointer dereference" w').
Proof.
  intros Hreply. destruct w as [h n t]; simpl in Hreply. split.
  - intros ->. rewrite WaitForTask_step, CreateTask_poll_step; simpl. rewrite Hreply.
    eauto.
  - intros Hhead. rewrite CreateTask_poll_step; simpl. rewrite Hreply.
    destruct statuses as [|[st|] rest]; simpl in Hhead; try discriminate. eauto.
Qed.

Lemma ecs_polls_panic_on_malformed_answer_witness :
  (∃ w', ecs.WaitForTask 1 (ecs.a_provider Inputs.finding_none)
           (taskHandle.mk "" "arn:task/1") ecs.w0
         = Panic "runtime error: index out of range [0] with length 0" w'
         ∧ ecs.CreateTask_poll 1 (ecs.a_provider Inputs.finding_none)
             (taskHandle.mk "" "arn:task/1") ecs.w0
           = Panic "runtime error: index out of range [0] with length 0" w')
  ∧ (∃ w', ecs.CreateTask_poll 1 (ecs.a_provider Inputs.without_status)
             (taskHandle.mk "" "arn:task/1") ecs.w0
           = Panic "runtime error: invalid memory address or nil pointer dereference" w').
Proof.
  split.
  - apply (proj1 (ecs_polls_panic_on_malformed_answer 0 (ecs.a_provider Inputs.finding_none)
                    (taskHandle.mk "" "arn:task/1") ecs.w0 [] eq_refl) eq_refl).
  - apply (proj2 (ecs_polls_panic_on_malformed_answer 0 (ecs.a_provider Inputs.without_status)
                    (taskHandle.mk "" "arn:task/1") ecs.w0 [None] eq_refl) eq_refl).
Defined.

(** [ecs.CreateTask] gives up at once when the launch does: an error
    of RunTask is returned as it is, and a launch that started no task is a
    panic on [Tasks[0]]; in both cases no poll was made and no time slept. *)
Theorem ecs_CreateTask_launch_failure (fuel : nat) (e : ecs.ecsProvider)
    (task : Task.t) (w : ecs.world) :
  (∀ err, ecs.RunTask_reply (ecs.svc e) (run_task_input e task) = inr err →
          ecs.CreateTask fuel e task w = Ret (inr err) w)
  ∧ (ecs.RunTask_reply (ecs.svc e) (run_task_input e task) = inl [] →
     ecs.CreateTask fuel e task w = Panic "runtime error: index out of range [0] with length 0" w).
Proof.
  split; [intros err H|intros H]; by rewrite CreateTask_unfold, H.
Qed.

Lemma ecs_CreateTask_launch_failure_witness :
  ecs.CreateTask 3 (ecs.a_provider Inputs.refusing)
    (Task.mk "spark-pi" "apache/spark" [] ∅) ecs.w0
  = Ret (inr "AccessDeniedException") ecs.w0
  ∧ ecs.CreateTask 3 (ecs.a_provider Inputs.starting_none)
      (Task.mk "spark-pi" "apache/spark" [] ∅) ecs.w0
    = Panic "runtime error: index out of range [0] with length 0" ecs.w0.
Proof.
  split.
  - apply (proj1 (ecs_CreateTask_launch_failure 3 (ecs.a_provider Inputs.refusing)
                    (Task.mk "spark-pi" "apache/spark" [] ∅) ecs.w0)). reflexivity.
  - apply (proj2 (ecs_CreateTask_launch_failure 3 (ecs.a_provider Inputs.starting_none)
                    (Task.mk "spark-pi" "apache/spark" [] ∅) ecs.w0)). reflexivity.
Defined.

(** X4.  [newEcsProvider] returns a provider only for an account it has
    fully checked: the cluster was found, exactly one task-definition family
    has "sparkanywhere" in its name, and the subnet and the security group
    could be described.  The provider then carries the given configuration,
    that family's name with its revision after a colon, and the name of the
    definition's first container. *)
Theorem newEcsProvider_ok_inv (acct : aws.Account) (config : option ECSConfig.t)
    (tr tr' : list aws.call) (p : ecs.ecsProvider) :
  aws.newEcsProvider acct config tr = Ret (inl p) tr' →
  ∃ cfg clusters families family revision container containers,
    config = Some cfg
    ∧ aws.NewSession_reply acct = None
    ∧ aws.DescribeClusters_reply acct (ECSConfig.ClusterName cfg) = inl clusters
    ∧ clusters ≠ []
    ∧ aws.ListTaskDefinitionFamilies_reply acct = inl families
    ∧ filter (λ x, aws.Contains x "sparkanywhere" = true) families = [family]
    ∧ aws.DescribeTaskDefinition_reply acct family = inl (revision, container :: containers)
    ∧ aws.DescribeSubnets_reply acct (ECSConfig.SubnetId cfg) = None
    ∧ aws.DescribeSecurityGroups_reply acct (ECSConfig.SecurityGroup cfg) = None
    ∧ p = ecs.mkProvider cfg (aws.service acct)
            (family +:+ ":" +:+ Sprintf_d revision) container.
Proof.
  run_aws. intros H.
  destruct (aws.NewSession_reply acct) eqn:Hs; [discriminate|].
  destruct config as [cfg|]; [|discriminate]. simpl in H.
  destruct (aws.DescribeClusters_reply acct _) as [clusters|] eqn:Hc; [|discriminate].
  destruct (decide (length clusters = 0)) as [|Hlen]; [discriminate|]. simpl in H.
  destruct (aws.ListTaskDefinitionFamilies_reply acct) as [families|] eqn:Hf; [|discriminate].
  destruct (decide (length (filter _ families) = 0)); [discriminate|].
  destruct (decide (1 < length (filter _ families))); [discriminate|].
  destruct (filter _ families) as [|family [|f2 fs]] eqn:Hfilter; simpl in *; try lia.
  destruct (aws.DescribeTaskDefinition_reply acct family) as [[revision containers]|] eqn:Hd;
    [|discriminate].
  destruct containers as [|container containers]; [discriminate|]. simpl in H.
  destruct (aws.DescribeSubnets_reply acct _) eqn:Hsub; [discriminate|]. simpl in H.
  destruct (aws.DescribeSecurityGroups_reply acct _) eqn:Hsg; [discriminate|].
  inversion H; subst.
  exists cfg, clusters, families, family, revision, container, containers.
  repeat split; try done. by intros ->.
Qed.

Lemma newEcsProvider_ok_inv_witness :
  ∃ cfg clusters families family revision container containers,
    Some Inputs.ecs_config = Some cfg
    ∧ aws.NewSession_reply (Inputs.account ["web"; "sparkanywhere"] []) = None
    ∧ aws.DescribeClusters_reply (Inputs.account ["web"; "sparkanywhere"] [])
        (ECSConfig.ClusterName cfg) = inl clusters
    ∧ clusters ≠ []
    ∧ aws.ListTaskDefinitionFamilies_reply (Inputs.account ["web"; "sparkanywhere"] [])
      = inl families
    ∧ filter (λ x, aws.Contains x "sparkanywhere" = true) families = [family]
    ∧ aws.DescribeTaskDefinition_reply (Inputs.account ["web"; "sparkanywhere"] []) family
      = inl (revision, container :: containers)
    ∧ aws.DescribeSubnets_reply (Inputs.account ["web"; "sparkanywhere"] [])
        (ECSConfig.SubnetId cfg) = None
    ∧ aws.DescribeSecurityGroups_reply (Inputs.account ["web"; "sparkanywhere"] [])
        (ECSConfig.SecurityGroup cfg) = None
    ∧ ecs.mkProvider Inputs.ecs_config ecs.stopped_service "sparkanywhere:7" "spark"
      = ecs.mkProvider cfg (aws.service (Inputs.account ["web"; "sparkanywhere"] []))
          (family +:+ ":" +:+ Sprintf_d revision) container.
Proof.
  apply (newEcsProvider_ok_inv (Inputs.account ["web"; "sparkanywhere"] [])
           (Some Inputs.ecs_config) []
           [aws.NewSession; aws.DescribeClusters "sparkanywhere-cluster";
            aws.ListTaskDefinitionFamilies; aws.DescribeTaskDefinition "sparkanywhere";
            aws.Log "Using task definitione" [("name", "sparkanywhere:7")];
            aws.Log "Detected task primary container" [("name", "spark")];
            aws.DescribeSubnets "subnet-1"; aws.DescribeSecurityGroups "sg-1"]
           (ecs.mkProvider Inputs.ecs_config ecs.stopped_service "sparkanywhere:7" "spark")).
  vm_compute. reflexivity.
Defined.

(** X5.  With the cluster found, [newEcsProvider] refuses an account in
    which the number of families named after "sparkanywhere" is not one: "no
    task definition found" for none, "more than one task definition found"
    otherwise.  It stops there: no task definition, subnet or security group
    is looked up. *)
Theorem newEcsProvider_family_count (acct : aws.Account) (cfg : ECSConfig.t)
    (tr : list aws.call) (clusters families : list string) :
  aws.NewSession_reply acct = None →
  aws.DescribeClusters_reply acct (ECSConfig.ClusterName cfg) = inl clusters →
  clusters ≠ [] →
  aws.ListTaskDefinitionFamilies_reply acct = inl families →
  length (filter (λ x, aws.Contains x "sparkanywhere" = true) families) ≠ 1 →
  aws.newEcsProvider acct (Some cfg) tr
  = Ret (inr (if decide (filter (λ x, aws.Contains x "sparkanywhere" = true) families = [])
              then "no task definition found"
              else "more than one task definition found"))
        (tr ++ [aws.NewSession; aws.DescribeClusters (ECSConfig.ClusterName cfg);
                aws.ListTaskDefinitionFamilies]).
Proof.
  intros Hs Hc Hne Hf Hcount. run_aws. rewrite Hs; simpl. rewrite Hc.
  destruct (decide (length clusters = 0)) as [Hz|_].
  { destruct clusters; [done|discriminate]. }
  simpl. rewrite Hf. rewrite <- !app_assoc; simpl.
  destruct (filter _ families) as [|f1 [|f2 fs]]; simpl in *; try done.
Qed.

Lemma newEcsProvider_family_count_witness :
  aws.newEcsProvider (Inputs.account ["sparkanywhere"; "web"; "sparkanywhere-dev"] [])
    (Some Inputs.ecs_config) []
  = Ret (inr "more than one task definition found")
        ([] ++ [aws.NewSession; aws.DescribeClusters "sparkanywhere-cluster";
                aws.ListTaskDefinitionFamilies])
  ∧ aws.newEcsProvider (Inputs.account ["web"] []) (Some Inputs.ecs_config) []
    = Ret (inr "no task definition found")
          ([] ++ [aws.NewSession; aws.DescribeClusters "sparkanywhere-cluster";
                  aws.ListTaskDefinitionFamilies]).
Proof.
  split.
  - apply (newEcsProvider_family_count
             (Inputs.account ["sparkanywhere"; "web"; "sparkanywhere-dev"] [])
             Inputs.ecs_config [] ["sparkanywhere-cluster"]
             ["sparkanywhere"; "web"; "sparkanywhere-dev"]);
      try reflexivity; [discriminate|vm_compute; lia].
  - apply (newEcsProvider_family_count (Inputs.account ["web"] [])
             Inputs.ecs_config [] ["sparkanywhere-cluster"] ["web"]);
      try reflexivity; [discriminate|vm_compute; lia].
Defined.

(** X6.  Whatever goes wrong when the subnet or the security group is
    described, [newEcsProvider] reports it as "subnet not found: <id>" or
    "security group not found: <id>", the underlying error is dropped; and
    the security group is not looked up once the subnet has failed. *)
Theorem newEcsProvider_network_errors (acct : aws.Account) (cfg : ECSConfig.t)
    (tr : list aws.call) (clusters families : list string) (family : string)
    (revision : Z) (container : string) (containers : list string) :
  aws.NewSession_reply acct = None →
  aws.DescribeClusters_reply acct (ECSConfig.ClusterName cfg) = inl clusters →
  clusters ≠ [] →
  aws.ListTaskDefinitionFamilies_reply acct = inl families →
  filter (λ x, aws.Contains x "sparkanywhere" = true) families = [family] →
  aws.DescribeTaskDefinition_reply acct family = inl (revision, container :: containers) →
  let before :=
    tr ++ [aws.NewSession; aws.DescribeClusters (ECSConfig.ClusterName cfg);
           aws.ListTaskDefinitionFamilies; aws.DescribeTaskDefinition family;
           aws.Log "Using task definitione"
             [("name", family +:+ ":" +:+ Sprintf_d revision)];
           aws.Log "Detected task primary container" [("name", container)];
           aws.DescribeSubnets (ECSConfig.SubnetId cfg)] in
  (∀ err, aws.DescribeSubnets_reply acct (ECSConfig.SubnetId cfg) = Some err →
          aws.newEcsProvider acct (Some cfg) tr
          = Ret (inr ("subnet not found: " +:+ ECSConfig.SubnetId cfg)) before)
  ∧ (∀ err, aws.DescribeSubnets_reply acct (ECSConfig.SubnetId cfg) = None →
            aws.DescribeSecurityGroups_reply acct (ECSConfig.SecurityGroup cfg) = Some err →
            aws.newEcsProvider acct (Some cfg) tr
            = Ret (inr ("security group not found: " +:+ ECSConfig.SecurityGroup cfg))
                  (before ++ [aws.DescribeSecurityGroups (ECSConfig.SecurityGroup cfg)])).
Proof.
  intros Hs Hc Hne Hf Hfam Hd. simpl.
  assert (∀ r1 r2,
            aws.DescribeSubnets_reply acct (ECSConfig.SubnetId cfg) = r1 →
            aws.DescribeSecurityGroups_reply acct (ECSConfig.SecurityGroup cfg) = r2 →
            aws.newEcsProvider acct (Some cfg) tr
            = let before :=
                tr ++ [aws.NewSession; aws.DescribeClusters (ECSConfig.ClusterName cfg);
                       aws.ListTaskDefinitionFamilies; aws.DescribeTaskDefinition family;
                       aws.Log "Using task definitione"
                         [("name", family +:+ ":" +:+ Sprintf_d revision)];
                       aws.Log "Detected task primary container" [("name", container)];
                       aws.DescribeSubnets (ECSConfig.SubnetId cfg)] in
              match r1, r2 with
              | Some _, _ => Ret (inr ("subnet not found: " +:+ ECSConfig.SubnetId cfg)) before
              | None, Some _ =>
                  Ret (inr ("security group not found: " +:+ ECSConfig.SecurityGroup cfg))
                      (before ++ [aws.DescribeSecurityGroups (ECSConfig.SecurityGroup cfg)])
              | None, None =>
                  Ret (inl (ecs.mkProvider cfg (aws.service acct)
                              (family +:+ ":" +:+ Sprintf_d revision) container))
                      (before ++ [aws.DescribeSecurityGroups (ECSConfig.SecurityGroup cfg)])
              end) as Hrun.
  { intros r1 r2 H1 H2. run_aws. rewrite Hs; simpl. rewrite Hc.
    destruct (decide (length clusters = 0)) as [Hz|_].
    { destruct clusters; [done|discriminate]. }
    simpl. rewrite Hf, Hfam; simpl. rewrite Hd; simpl. rewrite H1.
    rewrite <- !app_assoc; simpl.
    destruct r1; [done|]. simpl. rewrite H2. rewrite <- !app_assoc; simpl.
    by destruct r2. }
  split.
  - intros err H1. by rewrite (Hrun _ _ H1 eq_refl).
  - intros err H1 H2. by rewrite (Hrun _ _ H1 H2).
Qed.

Lemma newEcsProvider_network_errors_witness :
  aws.newEcsProvider (Inputs.account ["sparkanywhere"] ["subnet-1"; "sg-1"])
    (Some Inputs.ecs_config) []
  = Ret (inr "subnet not found: subnet-1")
        [aws.NewSession; aws.DescribeClusters "sparkanywhere-cluster";
         aws.ListTaskDefinitionFamilies; aws.DescribeTaskDefinition "sparkanywhere";
         aws.Log "Using task definitione" [("name", "sparkanywhere:7")];
         aws.Log "Detected task primary container" [("name", "spark")];
         aws.DescribeSubnets "subnet-1"]
  ∧ aws.newEcsProvider (Inputs.account ["sparkanywhere"] ["sg-1"])
      (Some Inputs.ecs_config) []
    = Ret (inr "security group not found: sg-1")
          [aws.NewSession; aws.DescribeClusters "sparkanywhere-cluster";
           aws.ListTaskDefinitionFamilies; aws.DescribeTaskDefinition "sparkanywhere";
           aws.Log "Using task definitione" [("name", "sparkanywhere:7")];
           aws.Log "Detected task primary container" [("name", "spark")];
           aws.DescribeSubnets "subnet-1"; aws.DescribeSecurityGroups "sg-1"].
Proof.
  split.
  - apply (proj1 (newEcsProvider_network_errors
                    (Inputs.account ["sparkanywhere"] ["subnet-1"; "sg-1"])
                    Inputs.ecs_config [] ["sparkanywhere-cluster"] ["sparkanywhere"]
                    "sparkanywhere" 7 "spark" ["log-router"]
                    eq_refl eq_refl ltac:(discriminate) eq_refl eq_refl eq_refl)
             "InvalidSubnetID.NotFound" eq_refl).
  - apply (proj2 (newEcsProvider_network_errors
                    (Inputs.account ["sparkanywhere"] ["sg-1"])
                    Inputs.ecs_config [] ["sparkanywhere-cluster"] ["sparkanywhere"]
                    "sparkanywhere" 7 "spark" ["log-router"]
                    eq_refl eq_refl ltac:(discriminate) eq_refl eq_refl eq_refl)
             "RequestExpired" eq_refl eq_refl).
Defined.

(* ================================================================== *)
(** ** More on the Docker provider *)
(* ================================================================== *)



Lemma container_env_elem (env : gmap string string) (x : string) :
  x ∈ docker.container_env env
  ↔ ∃ name value, env !! name = Some value ∧ x = name +:+ "=" +:+ value.
Proof.
  unfold docker.container_env. rewrite list_elem_of_fmap. split.
  - intros ([name value] & -> & H). apply elem_of_map_to_list in H. eauto.
  - intros (name & value & H & ->). exists (name, value). split; [done|].
    by apply elem_of_map_to_list.
Qed.

Lemma docker_CreateTask_calls (d : docker.dockerProvider) (task : Task.t) :
  ∃ rest,
    docker.calls (docker.CreateTask d task).1
    = docker.calls d
      ++ docker.ContainerCreate
           (docker.ContainerConfig.mk (Task.Image task) (Task.Args task)
              (docker.container_env (Task.Env task)))
           docker.dockerNetworkName
      :: rest.
Proof.
  unfold docker.CreateTask; simpl.
  destruct (docker.ContainerCreate_reply _ _ _) as [id|err]; simpl; [|eauto].
  destruct (docker.ContainerStart_reply _ id); simpl; rewrite <- app_assoc; simpl; eauto.
Qed.

(** X8.  In Docker mode, the first thing [createPod] asks of the engine for
    a pod with its one container is to create a container on the network
    "spark-network" with the container's image, its arguments as command,
    and an environment that holds [name=value] for exactly the names of the
    pod's list, each with the value the task has for it: "/tmp" for
    SPARK_LOCAL_DIRS, the last value submitted otherwise. *)
Theorem createPod_docker_container (pod : v1.Pod.t) (cc : v1.Container.t)
    (s : world docker.dockerProvider) :
  K8S.createLock (k8s s) = false →
  v1.PodSpec.Containers (v1.Pod.Spec pod) = [cc] →
  ∃ config rest,
    docker.calls (K8S.provider_ (k8s (final (createPod pod s))))
    = docker.calls (K8S.provider_ (k8s s))
      ++ docker.ContainerCreate config "spark-network" :: rest
    ∧ docker.ContainerConfig.Image config = v1.Container.Image cc
    ∧ docker.ContainerConfig.Cmd config = v1.Container.Args cc
    ∧ ∀ x, x ∈ docker.ContainerConfig.Env config
           ↔ ∃ name value,
               env_last name (v1.Container.Env cc) = Some value
               ∧ x = name +:+ "=" +:+ task_value name value.
Proof.
  destruct s as [[cfg ps hs chs d lock rv] tr]; simpl. intros -> Hcc.
  destruct (docker_CreateTask_calls d (podTask pod cc)) as [rest Hcalls].
  destruct (podTask_fields pod cc) as (_ & Himg & Hargs).
  exists (docker.ContainerConfig.mk (Task.Image (podTask pod cc)) (Task.Args (podTask pod cc))
            (docker.container_env (Task.Env (podTask pod cc)))), rest.
  split; [|split; [done|split; [done|]]].
  - destruct (docker.CreateTask d (podTask pod cc)) as [d' [handle|err]] eqn:Hcreate;
      simpl in Hcalls.
    + rewrite (createPod_created pod cc cfg ps hs chs d d' handle rv tr Hcc)
        by (simpl; by rewrite Hcreate).
      simpl. by destruct (deliver _ chs) as [chs' [|]].
    + rewrite (createPod_provider_error pod cc cfg ps hs chs d d' err rv tr Hcc)
        by (simpl; by rewrite Hcreate).
      done.
  - intros x. simpl. rewrite container_env_elem. split.
    + intros (name & value & H & ->). rewrite podTask_Env in H.
      destruct (env_last name (v1.Container.Env cc)) as [v|] eqn:Hlast; [|discriminate].
      simpl in H. injection H as <-. eauto.
    + intros (name & value & H & ->). exists name, (task_value name value).
      split; [|done]. by rewrite podTask_Env, H.
Qed.

Lemma createPod_docker_container_witness :
  ∃ config rest,
    docker.calls (K8S.provider_ (k8s (final (createPod Examples.exec1
                                               (Inputs.docker_shim (Inputs.engine false [])))))) 
    = [] ++ docker.ContainerCreate config "spark-network" :: rest
    ∧ docker.ContainerConfig.Image config = "apache/spark:latest"
    ∧ docker.ContainerConfig.Cmd config = ["executor"]
    ∧ ∀ x, x ∈ docker.ContainerConfig.Env config
           ↔ ∃ name value,
               env_last name (v1.Container.Env Examples.executor) = Some value
               ∧ x = name +:+ "=" +:+ task_value name value.
Proof.
  apply (createPod_docker_container Examples.exec1 Examples.executor
           (Inputs.docker_shim (Inputs.engine false [])) eq_refl eq_refl).
Defined.

(** X9.  In Docker mode, a pod whose container is created but cannot be
    started is reported as a failed creation: [createPod] returns the start
    error and records nothing, neither pod nor handle nor event, although
    the engine now holds one more container. *)
Theorem createPod_docker_start_failure (pod : v1.Pod.t) (cc : v1.Container.t)
    (s : world docker.dockerProvider) (id : string) (err : error) :
  K8S.createLock (k8s s) = false →
  v1.PodSpec.Containers (v1.Pod.Spec pod) = [cc] →
  let d := K8S.provider_ (k8s s) in
  let config :=
    docker.ContainerConfig.mk (v1.Container.Image cc) (v1.Container.Args cc)
      (docker.container_env (Task.Env (podTask pod cc))) in
  docker.ContainerCreate_reply (docker.cli d) (docker.created d) config = inl id →
  docker.ContainerStart_reply (docker.cli d) id = Some err →
  ∃ s', createPod pod s = Ret (Some err) s'
        ∧ K8S.pods (k8s s') = K8S.pods (k8s s)
        ∧ K8S.handles (k8s s') = K8S.handles (k8s s)
        ∧ K8S.updateCh (k8s s') = K8S.updateCh (k8s s)
        ∧ docker.created (K8S.provider_ (k8s s')) = S (docker.created d)
        ∧ docker.calls (K8S.provider_ (k8s s'))
          = docker.calls d ++ [docker.ContainerCreate config "spark-network";
                               docker.ContainerStart id].
Proof.
  destruct s as [[cfg ps hs chs d lock rv] tr]; simpl. intros -> Hcc Hcreate Hstart.
  destruct (podTask_fields pod cc) as (_ & Himg & Hargs).
  set (d' := docker.mkProvider (docker.cli d)
               (docker.calls d ++
                [docker.ContainerCreate
                   (docker.ContainerConfig.mk (v1.Container.Image cc) (v1.Container.Args cc)
                      (docker.container_env (Task.Env (podTask pod cc)))) "spark-network";
                 docker.ContainerStart id])
               (S (docker.created d))).
  assert (docker.CreateTask d (podTask pod cc) = (d', inr err)) as Hrun.
  { unfold docker.CreateTask; simpl. rewrite Himg, Hargs, Hcreate; simpl.
    rewrite Hstart. unfold docker.called, d'; simpl. by rewrite <- app_assoc. }
  eexists. split.
  - apply (createPod_provider_error pod cc cfg ps hs chs d d' err rv tr Hcc).
    simpl. by rewrite Hrun.
  - done.
Qed.

Lemma createPod_docker_start_failure_witness :
  ∃ s', createPod Examples.exec1 (Inputs.docker_shim (Inputs.engine false ["c-0"]))
        = Ret (Some "port is already allocated") s'
        ∧ K8S.pods (k8s s') = []
        ∧ K8S.handles (k8s s') = []
        ∧ K8S.updateCh (k8s s') = []
        ∧ docker.created (K8S.provider_ (k8s s')) = 1
        ∧ docker.calls (K8S.provider_ (k8s s'))
          = [] ++ [docker.ContainerCreate
                     (docker.ContainerConfig.mk "apache/spark:latest" ["executor"]
                        (docker.container_env
                           (Task.Env (podTask Examples.exec1 Examples.executor))))
                     "spark-network";
                   docker.ContainerStart "c-0"].
Proof.
  apply (createPod_docker_start_failure Examples.exec1 Examples.executor
           (Inputs.docker_shim (Inputs.engine false ["c-0"])) "c-0"
           "port is already allocated" eq_refl eq_refl eq_refl eq_refl).
Defined.

(* ================================================================== *)
(** ** More on the shim *)
(* ================================================================== *)

Section DeployFacts.
Context {P : Type} `{!provider P}.

(** What [deploy] does, case by case. *)
Lemma deploy_cases cfg ps hs chs (p : P) lock rv tr :
  deploy (World (K8S.mk cfg ps hs chs p lock rv) tr)
  = (let cfg' := if Config.DockerEnabled cfg
                 then Config.set_ControlPlaneAddr "host.docker.internal" cfg else cfg in
     if decide (Config.ControlPlaneAddr cfg' = "")
     then Ret (Some "control plane public address is required")
              (World (K8S.mk cfg' ps hs chs p lock rv) tr)
     else
       let task := driverTask (Config.ControlPlaneAddr cfg') (Config.Instances cfg') in
       let tr1 := tr ++ [Slog "INFO" "Using control plane address"
                           [("control-plane-addr", Config.ControlPlaneAddr cfg')];
                         CallCreateTask task] in
       match CreateTask p task with
       | None => Blocked (World (K8S.mk cfg' ps hs chs p lock rv) tr1)
       | Some (p', inr err) => Ret (Some err) (World (K8S.mk cfg' ps hs chs p' lock rv) tr1)
       | Some (p', inl handle) =>
           let named := taskHandle.set_Name "spark-pi" handle in
           let tr2 := tr1 ++ [Slog "INFO" "deploy task created"
                                [("name", "spark-pi"); ("id", taskHandle.Id handle)];
                              CallWaitForTask named] in
           match WaitForTask p' named with
           | None => Blocked (World (K8S.mk cfg' ps (hs ++ [named]) chs p' lock rv) tr2)
           | Some (p'', r) => Ret r (World (K8S.mk cfg' ps (hs ++ [named]) chs p'' lock rv) tr2)
           end
       end).
Proof.
  unfold deploy. run_go.
  destruct (Config.DockerEnabled cfg); simpl.
  - destruct (CreateTask p _) as [[p' [handle|err]]|]; simpl;
      rewrite <- ?app_assoc; simpl; try done.
    destruct (WaitForTask p' _) as [[p'' r]|]; simpl; rewrite <- ?app_assoc; simpl; done.
  - destruct (decide (Config.ControlPlaneAddr cfg = "")); [done|]. simpl.
    destruct (CreateTask p _) as [[p' [handle|err]]|]; simpl;
      rewrite <- ?app_assoc; simpl; try done.
    destruct (WaitForTask p' _) as [[p'' r]|]; simpl; rewrite <- ?app_assoc; simpl; done.
Qed.

End DeployFacts.

(** X10.  In Docker mode [deploy] calls the driver done as soon as its
    container is no longer running, whatever its exit status: when the
    container is created and started and the wait delivers a status, [deploy]
    returns nil, having recorded the container's handle under the name
    "spark-pi". *)
Theorem deploy_docker_ignores_exit_status (s : world docker.dockerProvider)
    (id : string) (status : Z) :
  Config.DockerEnabled (K8S.config (k8s s)) = true →
  let d := K8S.provider_ (k8s s) in
  let task := driverTask "host.docker.internal" (Config.Instances (K8S.config (k8s s))) in
  docker.ContainerCreate_reply (docker.cli d) (docker.created d)
    (docker.ContainerConfig.mk "apache/spark" (Task.Args task) []) = inl id →
  docker.ContainerStart_reply (docker.cli d) id = None →
  docker.ContainerWait_reply (docker.cli d) id = docker.WaitExit status →
  ∃ s', deploy s = Ret None s'
        ∧ K8S.handles (k8s s') = K8S.handles (k8s s) ++ [taskHandle.mk "spark-pi" id].
Proof.
  destruct s as [[[addr e dk ec n] ps hs chs d lock rv] tr]; simpl.
  intros -> Hcreate Hstart Hwait. rewrite deploy_cases; simpl.
  unfold docker.CreateTask, docker.container_env; simpl.
  rewrite map_to_list_empty; simpl. rewrite Hcreate; simpl. rewrite Hstart; simpl.
  unfold docker.WaitForTask; simpl. rewrite Hwait. eauto.
Qed.

Lemma deploy_docker_ignores_exit_status_witness :
  ∃ s', deploy (Inputs.docker_shim (Inputs.engine false [])) = Ret None s'
        ∧ K8S.handles (k8s s') = [] ++ [taskHandle.mk "spark-pi" "c-0"].
Proof.
  apply (deploy_docker_ignores_exit_status (Inputs.docker_shim (Inputs.engine false []))
           "c-0" 1 eq_refl eq_refl eq_refl eq_refl).
Defined.

(** X11.  A shim that [New] returns is empty and unlocked: it carries the
    configuration it was given, no pod, no handle, no subscriber, the
    counter at 0.  It was not given both flags, and it runs on the ECS
    provider exactly when the ECS flag is set, having called that
    constructor and no other. *)
Theorem New_ok_inv {E D} (newEcsProvider : option ECSConfig.t → E + error)
    (newDockerProvider : D + error) (cfg : Config.t) (k : K8S.t (E + D))
    (tr : list effect) :
  New newEcsProvider newDockerProvider cfg = (inl k, tr) →
  (∃ p, k = K8S.mk cfg [] [] [] p false 0)
  ∧ (Config.EcsEnabled cfg && Config.DockerEnabled cfg = false)
  ∧ match K8S.provider_ k with
    | inl e =>
        Config.EcsEnabled cfg = true
        ∧ newEcsProvider (Config.EcsConfig cfg) = inl e
        ∧ tr = [CallNewEcsProvider (Config.EcsConfig cfg)]
    | inr d =>
        Config.EcsEnabled cfg = false
        ∧ newDockerProvider = inl d
        ∧ tr = [CallNewDockerProvider]
    end.
Proof.
  unfold New. destruct (Config.EcsEnabled cfg) eqn:He, (Config.DockerEnabled cfg) eqn:Hd;
    simpl; try discriminate.
  - destruct (newEcsProvider _) as [e|err] eqn:Hn; simpl; intros [= <- <-]; simpl; repeat split; eauto.
  - destruct newDockerProvider as [d|err] eqn:Hn; simpl; intros [= <- <-]; simpl; repeat split; eauto.
  - destruct newDockerProvider as [d|err] eqn:Hn; simpl; intros [= <- <-]; simpl; repeat split; eauto.
Qed.

Lemma New_ok_inv_witness :
  let k := K8S.mk (Examples.ecs_only "10.0.0.7") [] [] []
             (inl (scripted.mk []) : scripted.t + scripted.t) false 0 in
  (∃ p, k = K8S.mk (Examples.ecs_only "10.0.0.7") [] [] [] p false 0)
  ∧ (true && false = false)
  ∧ (true = true
     ∧ (λ _ : option ECSConfig.t, inl (scripted.mk []) : scripted.t + error)
         (Config.EcsConfig (Examples.ecs_only "10.0.0.7")) = inl (scripted.mk [])
     ∧ [CallNewEcsProvider (Config.EcsConfig (Examples.ecs_only "10.0.0.7"))]
       = [CallNewEcsProvider (Config.EcsConfig (Examples.ecs_only "10.0.0.7"))]).
Proof.
  apply (New_ok_inv (λ _, inl (scripted.mk [])) (inr "docker is not running")
           (Examples.ecs_only "10.0.0.7")
           (K8S.mk (Examples.ecs_only "10.0.0.7") [] [] []
              (inl (scripted.mk []) : scripted.t + scripted.t) false 0)
           [CallNewEcsProvider (Config.EcsConfig (Examples.ecs_only "10.0.0.7"))]
           eq_refl).
Defined.

(** X12.  Whatever happens, [deploy] leaves the pods, the subscriber
    channels, the counter and the lock alone, and the handle list either as
    it was or with one more handle at the end, named "spark-pi"; the handle
    is there whenever the provider has been asked to wait, also if the wait
    fails or never ends. *)
Theorem deploy_frame {P} `{!provider P} (s : world P) :
  let s' := final (deploy s) in
  K8S.pods (k8s s') = K8S.pods (k8s s)
  ∧ K8S.updateCh (k8s s') = K8S.updateCh (k8s s)
  ∧ K8S.resourceVersion (k8s s') = K8S.resourceVersion (k8s s)
  ∧ K8S.createLock (k8s s') = K8S.createLock (k8s s)
  ∧ (K8S.handles (k8s s') = K8S.handles (k8s s)
     ∧ (∀ h, CallWaitForTask h ∉ drop (length (trace s)) (trace s'))
     ∨ ∃ id, K8S.handles (k8s s') = K8S.handles (k8s s) ++ [taskHandle.mk "spark-pi" id]
             ∧ last (trace s') = Some (CallWaitForTask (taskHandle.mk "spark-pi" id))).
Proof.
  destruct s as [[cfg ps hs chs p lock rv] tr]. rewrite deploy_cases. simpl.
  destruct (decide _) as [Haddr|Haddr]; simpl.
  { repeat split; try done. left. split; [done|]. intros h.
    rewrite drop_all. apply not_elem_of_nil. }
  destruct (CreateTask p _) as [[p' [handle|err]]|]; simpl.
  - destruct (WaitForTask p' _) as [[p'' r]|]; simpl; repeat split; try done;
      right; exists (taskHandle.Id handle); (split; [done|]);
      by rewrite last_app.
  - repeat split; try done. left. split; [done|]. intros h.
    rewrite drop_app_length. intros H.
    repeat (apply elem_of_cons in H as [H|H]; [discriminate H|]).
    by apply elem_of_nil in H.
  - repeat split; try done. left. split; [done|]. intros h.
    rewrite drop_app_length. intros H.
    repeat (apply elem_of_cons in H as [H|H]; [discriminate H|]).
    by apply elem_of_nil in H.
Qed.

Lemma deliver_extends (event : Event.t) (chs : list chan.t) :
  Forall2 (λ c c', chan.cap c' = chan.cap c
                   ∧ chan.buf c `prefix_of` chan.buf c'
                   ∧ (length (chan.buf c) ≤ chan.cap c → length (chan.buf c') ≤ chan.cap c'))
          chs (deliver event chs).1.
Proof.
  induction chs as [|c rest IH]; simpl; [constructor|].
  destruct (chan.full c) eqn:Hfull; simpl.
  - apply Forall2_same_length_lookup_2; [done|]. intros i x y Hx Hy.
    rewrite Hx in Hy. injection Hy as <-. done.
  - destruct (deliver event rest) as [rest' ok]; simpl in *. constructor; [|done].
    unfold chan.push; simpl. split; [done|]. split; [by apply prefix_app_r|].
    intros _. rewrite length_app; simpl.
    unfold chan.full in Hfull. apply bool_decide_eq_false in Hfull. lia.
Qed.

Lemma channels_extend_refl (chs : list chan.t) :
  Forall2 (λ c c', chan.cap c' = chan.cap c
                   ∧ chan.buf c `prefix_of` chan.buf c'
                   ∧ (length (chan.buf c) ≤ chan.cap c → length (chan.buf c') ≤ chan.cap c'))
          chs chs.
Proof.
  apply Forall2_same_length_lookup_2; [done|]. intros i x y Hx Hy.
  rewrite Hx in Hy. injection Hy as <-. done.
Qed.

(** X13.  Whatever its outcome (a return, the panic, a parked goroutine),
    [createPod] only adds: the pods and handles it found are a prefix of
    what it leaves, so is the trace, and the subscriber channels are the
    same ones, in the same order, each with the capacity it had and the
    events it held at the front of its queue; a queue within its capacity
    stays within it.  The configuration is not touched. *)
Theorem createPod_only_adds {P} `{!provider P} (pod : v1.Pod.t) (s : world P) :
  let s' := final (createPod pod s) in
  K8S.config (k8s s') = K8S.config (k8s s)
  ∧ K8S.pods (k8s s) `prefix_of` K8S.pods (k8s s')
  ∧ K8S.handles (k8s s) `prefix_of` K8S.handles (k8s s')
  ∧ trace s `prefix_of` trace s'
  ∧ Forall2 (λ c c', chan.cap c' = chan.cap c
                     ∧ chan.buf c `prefix_of` chan.buf c'
                     ∧ (length (chan.buf c) ≤ chan.cap c
                        → length (chan.buf c') ≤ chan.cap c'))
            (K8S.updateCh (k8s s)) (K8S.updateCh (k8s s')).
Proof.
  destruct s as [[cfg ps hs chs p lock rv] tr]. simpl.
  destruct lock.
  { rewrite createPod_locked by done. simpl.
    repeat split; try done. apply channels_extend_refl. }
  destruct (v1.PodSpec.Containers (v1.Pod.Spec pod)) as [|cc [|cc' l]] eqn:Hcc.
  - rewrite createPod_panic by (rewrite Hcc; simpl; lia). simpl.
    repeat split; try done. apply channels_extend_refl.
  - destruct (CreateTask p (podTask pod cc)) as [[p' [handle|e]]|] eqn:Hcreate.
    + rewrite (createPod_created pod cc cfg ps hs chs p p' handle rv tr Hcc Hcreate).
      simpl.
      pose proof (deliver_extends
                    (addedEvent (v1.Pod.set_Phase v1.PodRunning pod) (uint64_wrap (rv + 1)))
                    chs) as Hd.
      destruct (deliver _ chs) as [chs' [|]]; simpl in *;
        repeat split; try done; by apply prefix_app_r.
    + rewrite (createPod_provider_error pod cc cfg ps hs chs p p' e rv tr Hcc Hcreate).
      simpl. repeat split; try done; [by apply prefix_app_r|apply channels_extend_refl].
    + rewrite (createPod_provider_hang pod cc cfg ps hs chs p rv tr Hcc Hcreate).
      simpl. repeat split; try done; [by apply prefix_app_r|apply channels_extend_refl].
  - rewrite createPod_panic by (rewrite Hcc; simpl; lia). simpl.
    repeat split; try done. apply channels_extend_refl.
Qed.

Section RunFacts.
Context {P : Type} `{!provider P}.

Lemma createPods_run (attempts : list v1.Pod.t) :
  ∀ (errs : list (option error)) (s s' : world P),
    createPods attempts s = Ret errs s' →
    K8S.createLock (k8s s') = K8S.createLock (k8s s)
    ∧ K8S.updateCh (k8s s')
      = map (extended (stamped (K8S.resourceVersion (k8s s)) attempts errs))
            (K8S.updateCh (k8s s)).
Proof.
  induction attempts as [|pod attempts IH]; intros errs s s' H.
  - inversion H; subst; simpl. by rewrite extended_nil.
  - simpl in H. unfold bind at 1 in H.
    destruct (createPod pod s) as [err s1| |] eqn:Hpod; try discriminate.
    unfold bind at 1 in H.
    destruct (createPods attempts s1) as [errs1 s2| |] eqn:Hrest; try discriminate.
    inversion H; subst errs s'. clear H.
    destruct (IH _ _ _ Hrest) as (Hlock & Hchs).
    apply createPod_Ret_inv in Hpod as (cc & p' & r & Hl & _ & _ & Hr).
    simpl in Hr. destruct r as [handle|e]; destruct Hr as [-> ->];
      simpl in *; rewrite Hlock, Hchs, Hl.
    + split; [done|]. rewrite extended_push. do 3 f_equal.
      apply stamped_wrap, uint64_wrap_idemp.
    + split; [done|]. do 2 f_equal. apply stamped_wrap, uint64_wrap_idemp.
Qed.

Lemma getPods_watch_run cfg ps hs chs (p : P) rv tr :
  getPods_watch (World (K8S.mk cfg ps hs chs p false rv) tr)
  = Ret (length chs) (World (K8S.mk cfg ps hs (chs ++ [chan.make 1000]) p false rv) tr).
Proof. unfold getPods_watch. by run_go. Qed.

End RunFacts.

(** X14.  A watcher gets what is created after it has registered, and
    nothing else.  When a watch is registered on an unlocked shim and a run
    of serialised creations then returns, the watcher's channel, the last
    one, holds exactly the events of the run's successful attempts, in
    order; a watch registered after the run starts with an empty channel of
    capacity 1000, so it is not sent what it missed. *)
Theorem watcher_receives_run {P} `{!provider P} (attempts : list v1.Pod.t)
    (errs : list (option error)) (s s2 : world P) :
  K8S.createLock (k8s s) = false →
  createPods attempts (final (getPods_watch s)) = Ret errs s2 →
  K8S.updateCh (k8s s2) !! length (K8S.updateCh (k8s s))
  = Some (chan.mk 1000 (stamped (K8S.resourceVersion (k8s s)) attempts errs))
  ∧ getPods_watch s = Ret (length (K8S.updateCh (k8s s))) (final (getPods_watch s))
  ∧ K8S.updateCh (k8s (final (getPods_watch s2)))
    = K8S.updateCh (k8s s2) ++ [chan.make 1000].
Proof.
  destruct s as [[cfg ps hs chs p lock rv] tr]; simpl. intros -> Hrun.
  rewrite getPods_watch_run in Hrun |- *. simpl in Hrun.
  apply createPods_run in Hrun as (Hlock & Hchs). simpl in Hlock, Hchs.
  split; [|split; [done|]].
  - rewrite Hchs, map_app; simpl. rewrite list_lookup_middle by (by rewrite length_map).
    done.
  - destruct s2 as [[cfg2 ps2 hs2 chs2 p2 lock2 rv2] tr2]; simpl in *. subst lock2.
    by rewrite getPods_watch_run.
Qed.

Lemma watcher_receives_run_witness :
  ∃ s2,
    createPods [Examples.exec1; Examples.exec2]
      (final (getPods_watch
                (Examples.shim (Examples.docker_only "") []
                   [Examples.refused; Examples.started "c-2"])))
    = Ret [Some "launch refused"; None] s2
    ∧ K8S.updateCh (k8s s2) !! 0
      = Some (chan.mk 1000 (stamped 0 [Examples.exec1; Examples.exec2]
                              [Some "launch refused"; None])).
Proof.
  eexists. split; [vm_compute; reflexivity|].
  refine (proj1 (watcher_receives_run [Examples.exec1; Examples.exec2]
                   [Some "launch refused"; None]
                   (Examples.shim (Examples.docker_only "") []
                      [Examples.refused; Examples.started "c-2"]) _ eq_refl _)).
  vm_compute. reflexivity.
Defined.

Section WatchFacts.
Context {P : Type} `{!provider P}.
Variable json_Marshal : Event.t → string + error.
Variable ctx_Done : nat → bool.

Lemma getPods_range_drains (enc : Event.t → string) (i cap : nat) :
  ∀ pending cfg ps hs chs (p : P) lock rv tr out,
    chs !! i = Some (chan.mk cap pending) →
    (∀ ev, ev ∈ pending → json_Marshal ev = inl (enc ev)) →
    (∀ j, j < length pending → ctx_Done (length out + j + 1) = false) →
    getPods_range json_Marshal ctx_Done i pending
      (Watcher (World (K8S.mk cfg ps hs chs p lock rv) tr) out)
    = Blocked
        (Watcher (World (K8S.mk cfg ps hs (<[i := chan.mk cap []]> chs) p lock rv)
                        (tr ++ replicate (length pending) (Slog "INFO" "sending event" [])))
                 (out ++ map enc pending)).
Proof.
  induction pending as [|ev rest IH]; intros cfg ps hs chs p lock rv tr out Hi Henc Hdone.
  - simpl. unfold park. rewrite list_insert_id by done. by rewrite !app_nil_r.
  - cbn [getPods_range]. unfold bind at 1. unfold chan_recv; simpl. rewrite Hi; simpl.
    unfold bind at 1. unfold modify at 1; simpl.
    rewrite (Henc ev) by (by left).
    unfold bind at 1. unfold modify at 1; simpl.
    unfold bind at 1. unfold gets at 1; simpl.
    rewrite length_app; simpl.
    pose proof (Hdone 0 ltac:(simpl; lia)) as Hd0.
    rewrite Nat.add_0_r in Hd0. rewrite Hd0.
    unfold K8S_set.updateCh; simpl.
    rewrite IH.
    + rewrite list_insert_insert_eq. rewrite <- !app_assoc. done.
    + apply list_lookup_insert_eq. by eapply lookup_lt_Some.
    + intros ev' Hev'. apply Henc. by right.
    + intros j Hj. rewrite length_app; simpl.
      replace (length out + 1 + j + 1) with (length out + S j + 1) by lia.
      apply Hdone. simpl. lia.
Qed.

End WatchFacts.

(** X15.  A watch handler that is woken up writes what its channel holds,
    oldest first: while every event encodes and the request is not
    cancelled, it logs and flushes one chunk per event, in the order of the
    channel, empties the channel, and waits for the next event.  Its channel
    stays in [k.updateCh], and no other channel is touched. *)
Theorem getPods_writes_in_order {P} `{!provider P}
    (json_Marshal : Event.t → string + error) (ctx_Done : nat → bool)
    (enc : Event.t → string) (i : nat) (c : chan.t) (s : watcher P) :
  K8S.updateCh (k8s (shim_ s)) !! i = Some c →
  (∀ ev, ev ∈ chan.buf c → json_Marshal ev = inl (enc ev)) →
  (∀ j, j < length (chan.buf c) → ctx_Done (length (flushed s) + j + 1) = false) →
  ∃ s', getPods_resume json_Marshal ctx_Done i s = Blocked s'
        ∧ flushed s' = flushed s ++ map enc (chan.buf c)
        ∧ K8S.updateCh (k8s (shim_ s'))
          = <[i := chan.mk (chan.cap c) []]> (K8S.updateCh (k8s (shim_ s)))
        ∧ trace (shim_ s')
          = trace (shim_ s)
            ++ replicate (length (chan.buf c)) (Slog "INFO" "sending event" []).
Proof.
  destruct s as [[[cfg ps hs chs p lock rv] tr] out], c as [cap pending]; simpl.
  intros Hi Henc Hdone. unfold getPods_resume; simpl. rewrite Hi; simpl.
  rewrite (getPods_range_drains json_Marshal ctx_Done enc i cap pending) by done.
  eexists. split; [reflexivity|]. done.
Qed.

Lemma getPods_writes_in_order_witness :
  let e1 := addedEvent Examples.exec1 1 in
  let e2 := addedEvent Examples.exec2 2 in
  let enc := λ ev : Event.t,
    v1.ObjectMeta.ResourceVersion (v1.Pod.Meta (Event.Object ev)) in
  let s := Watcher (World (K8S.mk (Examples.docker_only "") [] []
                             [chan.make 1000; chan.mk 1000 [e1; e2]]
                             (scripted.mk []) false 2) []) [] in
  ∃ s', getPods_resume (λ ev, inl (enc ev)) (λ _, false) 1 s = Blocked s'
        ∧ flushed s' = [] ++ map enc [e1; e2]
        ∧ K8S.updateCh (k8s (shim_ s'))
          = <[1 := chan.mk 1000 []]> [chan.make 1000; chan.mk 1000 [e1; e2]]
        ∧ trace (shim_ s') = [] ++ replicate 2 (Slog "INFO" "sending event" []).
Proof.
  apply (getPods_writes_in_order
           (λ ev, inl (v1.ObjectMeta.ResourceVersion (v1.Pod.Meta (Event.Object ev))))
           (λ _, false)
           (λ ev, v1.ObjectMeta.ResourceVersion (v1.Pod.Meta (Event.Object ev)))
           1 (chan.mk 1000 [addedEvent Examples.exec1 1; addedEvent Examples.exec2 2])
           (Watcher (World (K8S.mk (Examples.docker_only "") [] []
                              [chan.make 1000;
                               chan.mk 1000 [addedEvent Examples.exec1 1;
                                             addedEvent Examples.exec2 2]]
                              (scripted.mk []) false 2) []) [])).
  - reflexivity.
  - intros ev _. reflexivity.
  - intros j _. reflexivity.
Defined.

(** X16.  A watch handler notices that its request is cancelled only after
    it has written an event.  With the context done, a handler whose channel
    holds [event :: rest] writes [event] alone and returns nil, leaving
    [rest] in the channel, which stays registered in [k.updateCh]; a handler
    whose channel is empty keeps waiting, cancelled or not. *)
Theorem getPods_cancellation {P} `{!provider P}
    (json_Marshal : Event.t → string + error) (ctx_Done : nat → bool)
    (i : nat) (c : chan.t) (s : watcher P) :
  K8S.updateCh (k8s (shim_ s)) !! i = Some c →
  (chan.buf c = [] → getPods_resume json_Marshal ctx_Done i s = Blocked s)
  ∧ (∀ event rest data,
       chan.buf c = event :: rest →
       json_Marshal event = inl data →
       ctx_Done (length (flushed s) + 1) = true →
       ∃ s', getPods_resume json_Marshal ctx_Done i s = Ret None s'
             ∧ flushed s' = flushed s ++ [data]
             ∧ K8S.updateCh (k8s (shim_ s'))
               = <[i := chan.mk (chan.cap c) rest]> (K8S.updateCh (k8s (shim_ s)))).
Proof.
  destruct s as [[[cfg ps hs chs p lock rv] tr] out], c as [cap pending]; simpl.
  intros Hi. split.
  - intros ->. unfold getPods_resume; simpl. by rewrite Hi.
  - intros event rest data -> Hdata Hdone. unfold getPods_resume; simpl. rewrite Hi.
    cbn [getPods_range chan.buf]. unfold bind at 1. unfold chan_recv; simpl.
    rewrite Hi; simpl. unfold bind at 1. unfold modify at 1; simpl.
    rewrite Hdata. unfold bind at 1. unfold modify at 1; simpl.
    unfold bind at 1. unfold gets at 1; simpl. rewrite length_app; simpl.
    rewrite Hdone. unfold ret. eexists. split; [reflexivity|]. done.
Qed.

Lemma getPods_cancellation_witness :
  let e1 := addedEvent Examples.exec1 1 in
  let e2 := addedEvent Examples.exec2 2 in
  let enc := λ ev : Event.t,
    v1.ObjectMeta.ResourceVersion (v1.Pod.Meta (Event.Object ev)) in
  let s := Watcher (World (K8S.mk (Examples.docker_only "") [] []
                             [chan.mk 1000 [e1; e2]] (scripted.mk []) false 2) []) [] in
  ∃ s', getPods_resume (λ ev, inl (enc ev)) (λ _, true) 0 s = Ret None s'
        ∧ flushed s' = [] ++ ["1"]
        ∧ K8S.updateCh (k8s (shim_ s'))
          = <[0 := chan.mk 1000 [e2]]> [chan.mk 1000 [e1; e2]].
Proof.
  apply (proj2 (getPods_cancellation
                  (λ ev, inl (v1.ObjectMeta.ResourceVersion (v1.Pod.Meta (Event.Object ev))))
                  (λ _, true) 0
                  (chan.mk 1000 [addedEvent Examples.exec1 1; addedEvent Examples.exec2 2])
                  (Watcher (World (K8S.mk (Examples.docker_only "") [] []
                                     [chan.mk 1000 [addedEvent Examples.exec1 1;
                                                    addedEvent Examples.exec2 2]]
                                     (scripted.mk []) false 2) []) [])
                  eq_refl)
           (addedEvent Examples.exec1 1) [addedEvent Examples.exec2 2] "1"
           eq_refl eq_refl eq_refl).
Defined.

Section LogsFacts.
Context {P : Type} `{!provider P}.
Variable filepath_Join : list string → string.
Variable MkdirAll : string → option error.
Variable WriteFile : string → string → option error.
Variable now : Z.


End LogsFacts.


Lemma docker_gather (filepath_Join : list string → string)
    (WriteFile : string → string → option error) (logDir : string)
    (text : string → string) (engine : docker.Engine) :
  ∀ handles calls created files,
    (∀ h, h ∈ handles →
          docker.ContainerLogs_reply engine (taskHandle.Id h) = inl (inl (text (taskHandle.Id h)))) →
    (∀ path data, WriteFile path data = None) →
    gather filepath_Join WriteFile logDir handles
      (docker.mkProvider engine calls created) files
    = (None,
       docker.mkProvider engine
         (calls ++ ((λ h, docker.ContainerLogs (taskHandle.Id h)) <$> handles)) created,
       files ++ ((λ h, (filepath_Join [logDir; taskHandle.Name h +:+ ".log"],
                        text (taskHandle.Id h))) <$> handles)).
Proof.
  induction handles as [|h handles IH]; intros calls created files Hlogs Hw; simpl.
  - by rewrite !app_nil_r.
  - unfold docker.GetLogs, docker.called; simpl.
    rewrite (Hlogs h) by (by left). simpl. rewrite Hw.
    rewrite IH; [|intros h' Hh'; apply Hlogs; by right|done].
    by rewrite <- !app_assoc.
Qed.

(** X18.  In Docker mode, when the engine hands out the logs of every
    recorded container and every write succeeds, [GatherLogs] returns nil
    having asked for the logs of each handle once, in order, and written
    for each handle the text of its container to [<name>.log] under the
    directory of the run. *)
Theorem GatherLogs_docker_all (filepath_Join : list string → string)
    (MkdirAll : string → option error) (WriteFile : string → string → option error)
    (now : Z) (text : string → string) (s : world docker.dockerProvider) :
  MkdirAll (filepath_Join ["logs"; Sprintf_d now]) = None →
  (∀ path data, WriteFile path data = None) →
  (∀ h, h ∈ K8S.handles (k8s s) →
        docker.ContainerLogs_reply (docker.cli (K8S.provider_ (k8s s))) (taskHandle.Id h)
        = inl (inl (text (taskHandle.Id h)))) →
  let r := GatherLogs filepath_Join MkdirAll WriteFile now s in
  r.1.1 = None
  ∧ r.2 = (λ h, (log_path filepath_Join now h, text (taskHandle.Id h)))
          <$> K8S.handles (k8s s)
  ∧ docker.calls (K8S.provider_ (k8s r.1.2))
    = docker.calls (K8S.provider_ (k8s s))
      ++ ((λ h, docker.ContainerLogs (taskHandle.Id h)) <$> K8S.handles (k8s s)).
Proof.
  destruct s as [[cfg ps hs chs [engine calls created] lock rv] tr]; simpl.
  intros Hmk Hw Hlogs. unfold GatherLogs; simpl. rewrite Hmk.
  rewrite (docker_gather filepath_Join WriteFile _ text engine hs calls created [] Hlogs Hw).
  done.
Qed.

Lemma GatherLogs_docker_all_witness :
  let s := World (K8S.mk (Examples.docker_only "") [] 
                    [taskHandle.mk "spark-pi" "c-0"; taskHandle.mk "spark-pi-exec-1" "c-1"]
                    [] (docker.mkProvider (Inputs.engine false []) [] 2) false 1) [] in
  let r := GatherLogs join_slash (λ _, None) (λ _ _, None) 1700000000000 s in
  r.1.1 = None
  ∧ r.2 = [("logs/1700000000000/spark-pi.log", "logs of c-0");
           ("logs/1700000000000/spark-pi-exec-1.log", "logs of c-1")].
Proof.
  pose proof (GatherLogs_docker_all join_slash (λ _, None) (λ _ _, None) 1700000000000
                (λ id, "logs of " +:+ id)
                (World (K8S.mk (Examples.docker_only "") []
                          [taskHandle.mk "spark-pi" "c-0"; taskHandle.mk "spark-pi-exec-1" "c-1"]
                          [] (docker.mkProvider (Inputs.engine false []) [] 2) false 1) [])
                eq_refl (λ _ _, eq_refl) (λ _ _, eq_refl)) as (H1 & H2 & _).
  split; [exact H1|]. rewrite H2. vm_compute. reflexivity.
Defined.
